(** * BuyBuzz DataHub: the wallet ledger, the order sequence and the
      payment reconciliation handlers of [index.js]

    The development embeds the request handlers of the Express server as
    functions from a database state (and the request) to a response and
    a new database state, and checks the properties of the ledger core
    against them.

    Conventions of the embedding.
    - A [DECIMAL(10,2)] value is represented by its number of hundredths
      (pesewas), an integer; the range limit of the column is not
      represented.  The provider's amounts are in hundredths already, so
      JavaScript's [amount / 100] (hundredths to GHS) is the identity
      here.
    - The connection pool is created without [decimalNumbers], so a
      [DECIMAL] column reaches JavaScript as its text ([decimal_text]).
      Where a handler compares two such texts with [<], the comparison
      is the one of strings ([js_string_lt]); where it compares a text
      with a number of the request, the text is converted and the
      comparison is the one of numbers.
    - A table with a [UNIQUE] key that the handlers use for lookup
      ([wallets.user_id]) is a finite map; the other tables are lists of
      rows in insertion order.  Where nothing else is said, the [=] of
      SQL on a text column is equality of the strings; the reading of an
      order takes the collation as a parameter.
    - The width of a text column is not represented: a text that is
      stored is taken to fit its column.
    - [START TRANSACTION] ... [COMMIT]/[ROLLBACK] brackets of a handler
      that runs alone restore, when a statement fails, the state in
      which the bracket was entered.
    - [Date.now()], [Math.random()] and the payment provider's answers
      are inputs of the handlers.
    - [app.use(express.json())] comes before every route; the webhook
      route is embedded with it and with its own body parser.
    - The amount of a transfer is a JSON number of at most two decimals.
    - A handler runs from its first statement to its answer without
      another handler in between; the section on order codes also looks
      at two purchases that have both run up to the read of the
      counter. *)

From Stdlib Require Import ZArith Lia Ascii.
From stdpp Require Import gmap strings list sorting pretty.

Open Scope string_scope.
Open Scope list_scope.
Open Scope Z_scope.

(** ** Tables *)

Inductive wallet_level := Bronze | Silver | Gold | Platinum.

Inductive tx_type :=
  credit | debit | transfer_in | transfer_out | purchase | refund.

Inductive tx_status := pending | completed | failed | cancelled.

Inductive order_type :=
  data_bundle | results_checker | afa_bundle | top_up | flyer_generation.

(** The statuses of an order share two names with those of a ledger
    entry, so they live in a name space of their own. *)
Module OrderStatus.
Inductive t :=
  pending_payment | processing | completed | failed | refunded | cancelled.
End OrderStatus.

Inductive product_status := active | inactive.

(** The networks of [data_bundle_products], and the strings that name
    them. *)
Inductive network_name := MTN | Telecel | AirtelTigo.

Definition network_label (n : network_name) : string :=
  match n with
  | MTN => "MTN"
  | Telecel => "Telecel"
  | AirtelTigo => "AirtelTigo"
  end.

(** The [transaction_id] strings, by the template that builds them:
    [`PAY-${Date.now()}-${random}`], [`DATA-${Date.now()}-${random}`],
    [`TRANSFER-OUT-${Date.now()}`] and [`TRANSFER-IN-${Date.now()}`]. *)
Inductive transaction_id :=
| PAY (now : Z) (rnd : string)
| DATA (now : Z) (rnd : string)
| TRANSFER_OUT (now : Z)
| TRANSFER_IN (now : Z).

(** The [order_id] strings [`BUZZ-${n}`]. *)
Inductive order_code := BUZZ (n : Z).

Definition code_number (c : order_code) : Z := let 'BUZZ n := c in n.

#[global] Instance wallet_level_eq_dec : EqDecision wallet_level.
Proof. solve_decision. Defined.
#[global] Instance tx_type_eq_dec : EqDecision tx_type.
Proof. solve_decision. Defined.
#[global] Instance tx_status_eq_dec : EqDecision tx_status.
Proof. solve_decision. Defined.
#[global] Instance order_status_eq_dec : EqDecision OrderStatus.t.
Proof. solve_decision. Defined.
#[global] Instance product_status_eq_dec : EqDecision product_status.
Proof. solve_decision. Defined.
#[global] Instance transaction_id_eq_dec : EqDecision transaction_id.
Proof. solve_decision. Defined.
#[global] Instance order_code_eq_dec : EqDecision order_code.
Proof. solve_decision. Defined.

Record user := {
  u_id : Z;
  u_full_name : string;
  u_email : string
}.

(** A row of [wallets]; the row of a user is found under the user's id. *)
Record wallet := {
  balance : Z;
  level : wallet_level
}.

Record wallet_transaction := {
  tx_user_id : Z;
  tx_transaction_id : transaction_id;
  tx_reference : option string;
  tx_type_of : tx_type;
  tx_amount : Z;
  tx_status_of : tx_status;
  tx_description : string
}.

Record order := {
  order_id : order_code;
  o_user_id : Z;
  o_order_type : order_type;
  o_product_name : string;
  o_network : string;
  o_bundle_size : string;
  o_amount : Z;
  o_beneficiary_number : string;
  o_status : OrderStatus.t
}.

Record product := {
  p_network : network_name;
  p_bundle_size : string;
  p_price : Z;
  p_status : product_status
}.

Record db := {
  users : list user;
  wallets : gmap Z wallet;
  wallet_transactions : list wallet_transaction;
  orders : list order;
  order_sequence : list Z;
  data_bundle_products : list product
}.

(** ** Statements *)

Definition set_wallets (d : db) (ws : gmap Z wallet) : db :=
  {| users := users d; wallets := ws;
     wallet_transactions := wallet_transactions d; orders := orders d;
     order_sequence := order_sequence d;
     data_bundle_products := data_bundle_products d |}.

Definition set_wallet_transactions (d : db) (ts : list wallet_transaction) : db :=
  {| users := users d; wallets := wallets d;
     wallet_transactions := ts; orders := orders d;
     order_sequence := order_sequence d;
     data_bundle_products := data_bundle_products d |}.

Definition set_orders (d : db) (os : list order) : db :=
  {| users := users d; wallets := wallets d;
     wallet_transactions := wallet_transactions d; orders := os;
     order_sequence := order_sequence d;
     data_bundle_products := data_bundle_products d |}.

Definition set_order_sequence (d : db) (s : list Z) : db :=
  {| users := users d; wallets := wallets d;
     wallet_transactions := wallet_transactions d; orders := orders d;
     order_sequence := s;
     data_bundle_products := data_bundle_products d |}.

Definition add_balance (delta : Z) (w : wallet) : wallet :=
  {| balance := balance w + delta; level := level w |}.

(** [UPDATE wallets SET balance = balance + ? WHERE user_id = ?]
    (and [balance - ?], with a negative [delta]): no row, no change. *)
Definition update_balance (uid : Z) (delta : Z) (d : db) : db :=
  set_wallets d (alter (add_balance delta) uid (wallets d)).

(** [INSERT INTO wallet_transactions]: [transaction_id] is [UNIQUE]. *)
Definition insert_wallet_transaction (t : wallet_transaction) (d : db) : option db :=
  if decide (tx_transaction_id t ∈ tx_transaction_id <$> wallet_transactions d)
  then None
  else Some (set_wallet_transactions d (wallet_transactions d ++ [t])).

(** [INSERT INTO orders]: [order_id] is [UNIQUE]. *)
Definition insert_order (o : order) (d : db) : option db :=
  if decide (order_id o ∈ order_id <$> orders d)
  then None
  else Some (set_orders d (orders d ++ [o])).

(** [UPDATE order_sequence SET last_number = last_number + 1] *)
Definition bump_order_sequence (d : db) : db :=
  set_order_sequence d ((λ n, n + 1) <$> order_sequence d).

(** [SELECT * FROM data_bundle_products WHERE network = ? AND
    bundle_size = ? AND status = "active"] *)
Definition select_product (network bundle_size : string) (d : db) : list product :=
  filter (λ p, network_label (p_network p) = network
               ∧ p_bundle_size p = bundle_size
               ∧ p_status p = active)
         (data_bundle_products d).

(** [SELECT * FROM wallet_transactions WHERE reference = ? AND
    status = "pending"] *)
Definition select_pending (ref : string) (d : db) : list wallet_transaction :=
  filter (λ t, tx_reference t = Some ref ∧ tx_status_of t = pending)
         (wallet_transactions d).

Definition settle_with (amt : Z) (t : wallet_transaction) : wallet_transaction :=
  {| tx_user_id := tx_user_id t; tx_transaction_id := tx_transaction_id t;
     tx_reference := tx_reference t; tx_type_of := tx_type_of t;
     tx_amount := amt; tx_status_of := completed;
     tx_description := tx_description t |}.

(** [UPDATE wallet_transactions SET status = "completed", amount = ?
    WHERE reference = ?] *)
Definition complete_by_reference (ref : string) (amt : Z) (d : db) : db :=
  set_wallet_transactions d
    ((λ t, if decide (tx_reference t = Some ref) then settle_with amt t else t)
       <$> wallet_transactions d).

(** [UPDATE wallet_transactions SET status = "completed"
    WHERE reference = ? AND user_id = ?] *)
Definition complete_by_reference_and_user (ref : string) (uid : Z) (d : db) : db :=
  set_wallet_transactions d
    ((λ t, if decide (tx_reference t = Some ref ∧ tx_user_id t = uid)
           then settle_with (tx_amount t) t else t)
       <$> wallet_transactions d).

(** ** Values as JavaScript sees them *)

Definition two_digits (n : Z) : string :=
  if decide (n < 10) then "0" +:+ pretty n else pretty n.

(** The text of a [DECIMAL(10,2)] value, as the driver returns the
    column: [9.00], [100.00], [-35.00]. *)
Definition decimal_text (z : Z) : string :=
  (if decide (z < 0) then "-" else "")
    +:+ pretty (Z.abs z / 100) +:+ "." +:+ two_digits (Z.abs z mod 100).

(** [s < t] of JavaScript on two strings: the order of the code units,
    a proper prefix first. *)
Definition js_string_lt (s t : string) : Prop := Is_true (String.ltb s t).

#[global] Instance js_string_lt_dec : RelDecision js_string_lt.
Proof. intros s t. unfold js_string_lt. apply _. Defined.

(** ** Responses *)

(** The wallet object of a response: a row of [wallets], or the literal
    [{ balance: 0, level: 'Bronze' }], which has no [user_id]. *)
Record wallet_view := {
  wv_user_id : option Z;
  wv_balance : Z;
  wv_level : wallet_level
}.

Definition row_view (uid : Z) (w : wallet) : wallet_view :=
  {| wv_user_id := Some uid; wv_balance := balance w; wv_level := level w |}.

Definition default_wallet : wallet_view :=
  {| wv_user_id := None; wv_balance := 0; wv_level := Bronze |}.

Record stats := {
  total_orders : Z;
  completed_orders : Z;
  pending_orders : Z
}.

Inductive body :=
| Error (msg : string)
| WalletPage (w : wallet_view) (transactions : list wallet_transaction)
| DashboardPage (full_name : option string) (w : wallet_view) (s : stats)
| TopupStarted (reference : string)
| Verified (w : option wallet_view)
| NotSuccessful
| PurchaseInitiated (code : order_code) (amt : Z) (st : OrderStatus.t)
                    (beneficiary : string)
| TransferCompleted (new_balance : Z)
| InternalServerError.

Inductive response :=
| Json (status : Z) (b : body)
| Send (status : Z) (text : string)
| SendStatus (status : Z).

(** ** Handlers *)

(** [req.user], as the token carries it. *)
Record auth_user := {
  id : Z;
  email : string
}.

(** *** GET /api/wallet *)

(** [wallets[0] || { balance: 0, level: 'Bronze' }] *)
Definition wallet_or_default (uid : Z) (d : db) : wallet_view :=
  match wallets d !! uid with
  | Some w => row_view uid w
  | None => default_wallet
  end.

(** The rows come newest first; rows are kept in insertion order here. *)
Definition recent_transactions (uid : Z) (d : db) : list wallet_transaction :=
  take 20 (reverse (filter (λ t, tx_user_id t = uid) (wallet_transactions d))).

Definition get_wallet (d : db) (u : auth_user) : response :=
  Json 200 (WalletPage (wallet_or_default (id u) d)
                       (recent_transactions (id u) d)).

(** *** GET /api/dashboard

    The [recent_activity] list, a rendering of rows with their dates, is
    left out of the page. *)

Definition count_orders (P : order → Prop) `{!∀ o, Decision (P o)}
    (d : db) : Z :=
  Z.of_nat (length (filter P (orders d))).

(** [SELECT balance, level FROM wallets WHERE user_id = ?], then
    [wallets[0] || { balance: 0, level: 'Bronze' }]: the row comes
    without its [user_id]. *)
Definition balance_and_level (w : wallet) : wallet_view :=
  {| wv_user_id := None; wv_balance := balance w; wv_level := level w |}.

Definition dashboard (d : db) (u : auth_user) : response :=
  let uid := id u in
  Json 200 (DashboardPage
    (u_full_name <$> head (filter (λ r, u_id r = uid) (users d)))
    (from_option balance_and_level default_wallet (wallets d !! uid))
    {| total_orders := count_orders (λ o, o_user_id o = uid) d;
       completed_orders :=
         count_orders (λ o, o_user_id o = uid
                            ∧ o_status o = OrderStatus.completed) d;
       pending_orders :=
         count_orders (λ o, o_user_id o = uid
                            ∧ (o_status o = OrderStatus.pending_payment
                               ∨ o_status o = OrderStatus.processing)) d |}).

(** *** POST /api/wallet/topup/initialize

    [started] is the reference in the provider's answer, [None] when the
    call throws. *)
Definition topup_initialize (d : db) (u : auth_user) (now : Z) (rnd : string)
    (amt : Z) (started : option string) : response * db :=
  if decide (amt ≤ 0) then (Json 400 (Error "Valid amount is required"), d)
  else match started with
  | None => (Json 500 (Error "Payment initialization failed"), d)
  | Some reference =>
    match insert_wallet_transaction
            {| tx_user_id := id u; tx_transaction_id := PAY now rnd;
               tx_reference := Some reference; tx_type_of := credit;
               tx_amount := amt; tx_status_of := pending;
               tx_description := "Wallet top-up via Paystack" |} d with
    | Some d' => (Json 200 (TopupStarted reference), d')
    | None => (Json 500 (Error "Payment initialization failed"), d)
    end
  end.

(** *** POST /api/data/buy

    The update that marks the order as delivered runs from a timer,
    three seconds after the answer, and is not part of the handler. *)

Record buy_request := {
  network : string;
  bundle_size : string;       (* the empty string when absent *)
  beneficiary_number : string (* the empty string when absent *)
}.

(** The handler up to the computation of [orderId]: the checks, the
    price, the balance check and the read of [order_sequence].  Nothing
    is written.  [wallets[0].balance] and [product[0].price] are both
    texts of [DECIMAL] columns, and [<] compares them as strings. *)
Definition buy_prepare (d : db) (u : auth_user) (r : buy_request)
    : response + Z * order_code :=
  if decide (network r ∉ ["MTN"; "Telecel"; "AirtelTigo"])
  then inl (Json 400 (Error "Invalid network"))
  else if decide (bundle_size r = "" ∨ beneficiary_number r = "")
  then inl (Json 400 (Error "Bundle size and beneficiary number are required"))
  else match select_product (network r) (bundle_size r) d with
  | [] => inl (Json 400 (Error "Invalid bundle selection"))
  | p :: _ =>
    let price := p_price p in
    match wallets d !! id u with
    | None => inl (Json 500 (Error "Data purchase failed"))
    | Some w =>
      if decide (js_string_lt (decimal_text (balance w)) (decimal_text price))
      then inl (Json 400 (Error "Insufficient wallet balance"))
      else match order_sequence d with
      | [] => inl (Json 500 (Error "Data purchase failed"))
      | last_number :: _ => inr (price, BUZZ (last_number + 1))
      end
    end
  end.

(** The two rows a purchase inserts. *)
Definition purchase_entry (u : auth_user) (now : Z) (rnd : string)
    (r : buy_request) (price : Z) : wallet_transaction :=
  {| tx_user_id := id u; tx_transaction_id := DATA now rnd;
     tx_reference := None; tx_type_of := debit;
     tx_amount := price; tx_status_of := completed;
     tx_description :=
       network r +:+ " " +:+ bundle_size r +:+ " data bundle" |}.

Definition purchase_order (u : auth_user) (r : buy_request) (price : Z)
    (orderId : order_code) : order :=
  {| order_id := orderId; o_user_id := id u;
     o_order_type := data_bundle;
     o_product_name := network r +:+ " " +:+ bundle_size r;
     o_network := network r; o_bundle_size := bundle_size r;
     o_amount := price;
     o_beneficiary_number := beneficiary_number r;
     o_status := OrderStatus.processing |}.

(** The statements between [START TRANSACTION] and [COMMIT]. *)
Definition buy_statements (u : auth_user) (now : Z) (rnd : string)
    (r : buy_request) (price : Z) (orderId : order_code) (d : db) : option db :=
  d1 ← Some (update_balance (id u) (- price) d);
  d2 ← insert_wallet_transaction (purchase_entry u now rnd r price) d1;
  d3 ← insert_order (purchase_order u r price orderId) d2;
  Some (bump_order_sequence d3).

(** The rest of the handler: the transaction and the answer. *)
Definition buy_commit (d : db) (u : auth_user) (now : Z) (rnd : string)
    (r : buy_request) (price : Z) (orderId : order_code) : response * db :=
  match buy_statements u now rnd r price orderId d with
  | Some d' =>
    (Json 200 (PurchaseInitiated orderId price OrderStatus.processing
                                 (beneficiary_number r)), d')
  | None => (Json 500 (Error "Data purchase failed"), d)
  end.

Definition buy (d : db) (u : auth_user) (now : Z) (rnd : string)
    (r : buy_request) : response * db :=
  match buy_prepare d u r with
  | inl resp => (resp, d)
  | inr (price, orderId) => buy_commit d u now rnd r price orderId
  end.

(** *** POST /api/wallet/transfer

    [amount] is a JSON number of at most two decimals, in hundredths:
    [senderWallet[0].balance < amount] then converts the text of the
    balance and compares numbers, and the two [UPDATE]s and the two
    [INSERT]s store the amount as it is. *)

Record transfer_request := {
  recipient_email : string;   (* the empty string when absent *)
  amount : Z;                 (* 0 when absent *)
  note : string               (* the empty string when absent *)
}.

(** [`${note ? ': ' + note : ''}`] *)
Definition note_suffix (n : string) : string :=
  if decide (n = "") then "" else ": " +:+ n.

(** The two rows a transfer inserts.  [now_out] and [now_in] are the
    two readings of [Date.now()]. *)
Definition transfer_out_entry (u : auth_user) (now_out : Z)
    (r : transfer_request) : wallet_transaction :=
  {| tx_user_id := id u; tx_transaction_id := TRANSFER_OUT now_out;
     tx_reference := None; tx_type_of := transfer_out;
     tx_amount := amount r; tx_status_of := completed;
     tx_description :=
       "Transfer to " +:+ recipient_email r +:+ note_suffix (note r) |}.

Definition transfer_in_entry (u : auth_user) (now_in : Z)
    (r : transfer_request) (recipient : user) : wallet_transaction :=
  {| tx_user_id := u_id recipient; tx_transaction_id := TRANSFER_IN now_in;
     tx_reference := None; tx_type_of := transfer_in;
     tx_amount := amount r; tx_status_of := completed;
     tx_description :=
       "Transfer from " +:+ email u +:+ note_suffix (note r) |}.

(** The statements between [START TRANSACTION] and [COMMIT]. *)
Definition transfer_statements (u : auth_user) (now_out now_in : Z)
    (r : transfer_request) (recipient : user) (d : db) : option db :=
  d1 ← Some (update_balance (id u) (- amount r) d);
  d2 ← insert_wallet_transaction (transfer_out_entry u now_out r) d1;
  d3 ← Some (update_balance (u_id recipient) (amount r) d2);
  insert_wallet_transaction (transfer_in_entry u now_in r recipient) d3.

Definition transfer (d : db) (u : auth_user) (now_out now_in : Z)
    (r : transfer_request) : response * db :=
  if decide (recipient_email r = "" ∨ amount r ≤ 0)
  then (Json 400 (Error "Valid recipient email and amount required"), d)
  else if decide (recipient_email r = email u)
  then (Json 400 (Error "Cannot transfer to yourself"), d)
  else match filter (λ x, u_email x = recipient_email r) (users d) with
  | [] => (Json 404 (Error "Recipient not found"), d)
  | recipient :: _ =>
    match wallets d !! id u with
    | None => (Json 500 (Error "Transfer failed"), d)
    | Some w =>
      if decide (balance w < amount r)
      then (Json 400 (Error "Insufficient balance"), d)
      else match transfer_statements u now_out now_in r recipient d with
      | None => (Json 500 (Error "Transfer failed"), d)
      | Some d' =>
        match wallets d' !! id u with
        | None => (Json 500 (Error "Transfer failed"), d')
        | Some w' => (Json 200 (TransferCompleted (balance w')), d')
        end
      end
    end
  end.

(** *** GET /api/wallet/topup/verify/:reference

    [answer] is [response.data.data] of the provider's verification
    call, [None] when the call throws. *)

Record verification := {
  v_status : string;
  v_amount : Z
}.

Definition verify (d : db) (u : auth_user) (reference : string)
    (answer : option verification) : response * db :=
  match answer with
  | None => (Json 500 (Error "Verification failed"), d)
  | Some a =>
    if decide (v_status a = "success") then
      let amt := v_amount a in
      let d1 := complete_by_reference_and_user reference (id u) d in
      let d2 := update_balance (id u) amt d1 in
      (Json 200 (Verified (row_view (id u) <$> wallets d2 !! id u)), d2)
    else (Json 200 NotSuccessful, d)
  end.

(** *** POST /api/webhook/paystack *)

Record charge := {
  ch_reference : string;
  ch_amount : Z
}.

Record event := {
  ev_event : string;
  ev_data : option charge
}.

(** What the handler does with a parsed event. *)
Definition reconcile (d : db) (e : event) : response * db :=
  if decide (ev_event e = "charge.success") then
    match ev_data e with
    | None => (Send 500 "Webhook processing failed", d)
    | Some c =>
      match select_pending (ch_reference c) d with
      | [] => (SendStatus 200, d)
      | transaction :: _ =>
        let amountInGHS := ch_amount c in
        let d1 := complete_by_reference (ch_reference c) amountInGHS d in
        let d2 := update_balance (tx_user_id transaction) amountInGHS d1 in
        (SendStatus 200, d2)
      end
    end
  else (SendStatus 200, d).

(** [process.env.PAYSTACK_WEBHOOK_SECRET || ''] *)
Definition signing_key (webhook_secret : option string) : string :=
  match webhook_secret with
  | Some k => k
  | None => ""
  end.

(** [req.body]: not set, the bytes that [express.raw] read, or the
    object that [express.json] parsed or put there ([{}]). *)
Inductive req_body :=
| Undefined
| Buffer (bytes : list Byte.byte)
| Parsed.

(** A request to the route.  [json_typed]: it has a body and declares
    it as [application/json], the type both body parsers look for.
    [readable]: [express.json] can read the payload (it is within the
    size limit and is a JSON object or array). *)
Record webhook_request := {
  json_typed : bool;
  readable : bool;
  payload : list Byte.byte;
  x_paystack_signature : option string
}.

(** What the body parsers keep on the request: [req._body] and
    [req.body]. *)
Record parsing := {
  body_read : bool;
  rq_body : req_body
}.

(** [req.body = req.body || {}] *)
Definition or_empty_object (b : req_body) : req_body :=
  match b with
  | Undefined => Parsed
  | _ => b
  end.

(** [app.use(express.json())]: [None] when it passes an error on. *)
Definition express_json (r : webhook_request) (st : parsing) : option parsing :=
  if body_read st then Some st
  else if json_typed r then
    if readable r then Some {| body_read := true; rq_body := Parsed |}
    else None
  else Some {| body_read := false; rq_body := or_empty_object (rq_body st) |}.

(** [express.raw({ type: 'application/json' })], the parser of the
    route. *)
Definition express_raw (r : webhook_request) (st : parsing) : parsing :=
  if body_read st then st
  else if json_typed r then
    {| body_read := true; rq_body := Buffer (payload r) |}
  else {| body_read := false; rq_body := or_empty_object (rq_body st) |}.

Section Webhook.

(** [crypto.createHmac('sha512', key).update(body).digest('hex')] and
    [JSON.parse(body.toString())], which is [None] when it throws. *)
Variable hmac_sha512_hex : string → list Byte.byte → string.
Variable parse : list Byte.byte → option event.

(** The handler.  [webhook_secret] is
    [process.env.PAYSTACK_WEBHOOK_SECRET], [signature] the
    [x-paystack-signature] header.  [update] takes a string or a buffer
    and throws on anything else; the [catch] of the handler answers. *)
Definition webhook (webhook_secret : option string) (d : db)
    (b : req_body) (signature : option string) : response * db :=
  match b with
  | Undefined | Parsed => (Send 500 "Webhook processing failed", d)
  | Buffer bytes =>
    let hash := hmac_sha512_hex (signing_key webhook_secret) bytes in
    if decide (Some hash ≠ signature)
    then (Send 401 "Invalid signature", d)
    else match parse bytes with
    | None => (Send 500 "Webhook processing failed", d)
    | Some e => reconcile d e
    end
  end.

(** The route as the application runs it: [express.json()], then the
    route's [express.raw], then the handler; an error that a parser
    passes on goes to the error handler at the end of the file. *)
Definition post_webhook (webhook_secret : option string) (d : db)
    (r : webhook_request) : response * db :=
  match express_json r {| body_read := false; rq_body := Undefined |} with
  | None => (Json 500 InternalServerError, d)
  | Some st =>
    webhook webhook_secret d (rq_body (express_raw r st)) (x_paystack_signature r)
  end.

End Webhook.

(** ** Order codes *)

(** Every stored order code is at most the counter that [buy] reads. *)
Definition seq_ok (d : db) : Prop :=
  match order_sequence d with
  | last_number :: _ =>
    Forall (λ o, code_number (order_id o) ≤ last_number) (orders d)
  | [] => True
  end.

(** The code in the answer of a purchase that went through. *)
Definition issued_code (resp : response) : option Z :=
  match resp with
  | Json 200 (PurchaseInitiated c _ _ _) => Some (code_number c)
  | _ => None
  end.

Record buy_call := {
  by_user : auth_user;
  at_time : Z;
  salt : string;
  request : buy_request
}.

(** Purchases handled one after another; the codes they were answered
    with, in order. *)
Fixpoint buy_all (d : db) (ps : list buy_call) : list Z * db :=
  match ps with
  | [] => ([], d)
  | p :: ps' =>
    let '(resp, d1) := buy d (by_user p) (at_time p) (salt p) (request p) in
    let '(cs, d2) := buy_all d1 ps' in
    (from_option (λ c, [c]) [] (issued_code resp) ++ cs, d2)
  end.

(** ** The ledger and the balances *)

(** The effect of an entry on the balance, by the direction of its
    kind. *)
Definition signed (t : wallet_transaction) : Z :=
  match tx_type_of t with
  | credit | transfer_in | refund => tx_amount t
  | debit | purchase | transfer_out => - tx_amount t
  end.

Definition counts_for (uid : Z) (t : wallet_transaction) : Z :=
  if decide (tx_user_id t = uid ∧ tx_status_of t = completed)
  then signed t else 0.

(** The sum of the completed entries of an account, credits minus
    debits. *)
Fixpoint net (uid : Z) (ts : list wallet_transaction) : Z :=
  match ts with
  | [] => 0
  | t :: ts' => counts_for uid t + net uid ts'
  end.

(** The reconstruction invariant: every wallet holds what the account's
    completed entries add up to. *)
Definition reconstructs (d : db) : Prop :=
  map_Forall (λ uid w, balance w = net uid (wallet_transactions d)) (wallets d).

(** The balance an account reads: that of its row, 0 without a row. *)
Definition balance_of (uid : Z) (d : db) : Z :=
  wv_balance (wallet_or_default uid d).

(** Two entries are linked when they carry the same reference. *)
Definition linked (a b : wallet_transaction) : Prop :=
  ∃ ref, tx_reference a = Some ref ∧ tx_reference b = Some ref.

(** A reference names at most one entry, and that entry is a top-up
    (kind [credit]): what [topup_initialize] writes when the provider
    never hands out a reference twice. *)
Definition names_one_topup (ref : string) (d : db) : Prop :=
  let rows := filter (λ x, tx_reference x = Some ref) (wallet_transactions d) in
  (length rows ≤ 1)%nat ∧ Forall (λ x, tx_type_of x = credit) rows.

(** ** The core operations *)

Inductive operation :=
| Notification (webhook_secret : option string) (r : webhook_request)
| Verification (u : auth_user) (reference : string)
               (answer : option verification)
| Purchase (u : auth_user) (now : Z) (rnd : string) (r : buy_request)
| Transfer (u : auth_user) (now_out now_in : Z) (r : transfer_request).

Section Operations.

Variable hmac_sha512_hex : string → list Byte.byte → string.
Variable parse : list Byte.byte → option event.

Definition exec (d : db) (op : operation) : response * db :=
  match op with
  | Notification secret r => post_webhook hmac_sha512_hex parse secret d r
  | Verification u reference answer => verify d u reference answer
  | Purchase u now rnd r => buy d u now rnd r
  | Transfer u now_out now_in r => transfer d u now_out now_in r
  end.

End Operations.

(** ** A sample store

    The store as [initializeDB] seeds it (the sequence row, the twelve
    bundles, the administrator, who gets no wallet), with two accounts
    signed up. *)

Definition catalogue : list product :=
  (λ '(n, s, p), {| p_network := n; p_bundle_size := s; p_price := p;
                    p_status := active |}) <$>
  [ (MTN, "1GB", 1000); (MTN, "2GB", 1800); (MTN, "5GB", 4000);
    (MTN, "10GB", 7500);
    (Telecel, "1GB", 900); (Telecel, "2GB", 1700); (Telecel, "5GB", 3800);
    (Telecel, "10GB", 7200);
    (AirtelTigo, "1GB", 800); (AirtelTigo, "2GB", 1500);
    (AirtelTigo, "5GB", 3500); (AirtelTigo, "10GB", 6800) ].

Definition admin : user :=
  {| u_id := 1; u_full_name := "System Admin";
     u_email := "admin@buybuzz.com" |}.
Definition ama : user :=
  {| u_id := 2; u_full_name := "Ama"; u_email := "ama@example.com" |}.
Definition kofi : user :=
  {| u_id := 3; u_full_name := "Kofi"; u_email := "kofi@example.com" |}.

Definition token_of (x : user) : auth_user :=
  {| id := u_id x; email := u_email x |}.

(** Ama holds [a] hundredths and Kofi [k]. *)
Definition store_with (a k : Z) (ts : list wallet_transaction) : db :=
  {| users := [admin; ama; kofi];
     wallets := <[2 := {| balance := a; level := Bronze |}]>
                (<[3 := {| balance := k; level := Bronze |}]> ∅);
     wallet_transactions := ts;
     orders := [];
     order_sequence := [4000];
     data_bundle_products := catalogue |}.

(** Ama holds [bal] hundredths, Kofi nothing. *)
Definition store (bal : Z) (ts : list wallet_transaction) : db :=
  store_with bal 0 ts.

Definition mtn_5gb (to : string) : buy_request :=
  {| network := "MTN"; bundle_size := "5GB"; beneficiary_number := to |}.

Definition mtn_1gb (to : string) : buy_request :=
  {| network := "MTN"; bundle_size := "1GB"; beneficiary_number := to |}.

Definition ama_buys (now : Z) : buy_call :=
  {| by_user := token_of ama; at_time := now; salt := "a1b2c3d4e";
     request := mtn_5gb "0241234567" |}.

Definition kofi_buys (now : Z) : buy_call :=
  {| by_user := token_of kofi; at_time := now; salt := "z9y8x7w6v";
     request := mtn_5gb "0209876543" |}.

(** A top-up of 20.00 that Ama started, with the provider's reference
    [R1]. *)
Definition pending_R1 : wallet_transaction :=
  {| tx_user_id := 2; tx_transaction_id := PAY 1700000000000 "k3j9x0q2a";
     tx_reference := Some "R1"; tx_type_of := credit; tx_amount := 2000;
     tx_status_of := pending;
     tx_description := "Wallet top-up via Paystack" |}.

(** A top-up of 50.00 of Ama's that was settled, under the reference
    [R0]. *)
Definition settled_R0 : wallet_transaction :=
  {| tx_user_id := 2; tx_transaction_id := PAY 1690000000000 "b7c1m4z8d";
     tx_reference := Some "R0"; tx_type_of := credit; tx_amount := 5000;
     tx_status_of := completed;
     tx_description := "Wallet top-up via Paystack" |}.

(** A stand-in digest for the examples: two hexadecimal digits that
    depend on the lengths of the key and of the message only. *)
Definition toy_digest (key : string) (msg : list Byte.byte) : string :=
  if Nat.even (String.length key + length msg) then "00" else "ff".

(** A stand-in parser for the examples: the first byte alone decides
    the event. *)
Definition toy_parse (msg : list Byte.byte) : option event :=
  match msg with
  | Byte.x01 :: _ =>
    Some {| ev_event := "charge.success";
            ev_data := Some {| ch_reference := "R1"; ch_amount := 2000 |} |}
  | Byte.x02 :: _ => Some {| ev_event := "transfer.success"; ev_data := None |}
  | _ => None
  end.

(** The provider's notification of the payment of [R1], as it comes in:
    a JSON body and a signature header. *)
Definition notified_R1 (signature : option string) : webhook_request :=
  {| json_typed := true; readable := true; payload := [Byte.x01];
     x_paystack_signature := signature |}.

Definition success_2000 : option verification :=
  Some {| v_status := "success"; v_amount := 2000 |}.

Definition send_to (to : string) (amt : Z) : transfer_request :=
  {| recipient_email := to; amount := amt; note := "" |}.

(** ** The read handlers of orders and bundles *)

#[global] Instance network_name_eq_dec : EqDecision network_name.
Proof. solve_decision. Defined.

(** The answer of a handler outside the ledger core: a status and a
    payload, or a status and the text of [{ error: ... }]. *)
Inductive reply (A : Type) :=
| Reply (status : Z) (payload : A)
| Refusal (status : Z) (msg : string).
Arguments Reply {A} status payload.
Arguments Refusal {A} status msg.

(** The string [`BUZZ-${n}`] that [orders.order_id] holds and that the
    answer of a purchase carries. *)
Definition order_id_string (c : order_code) : string :=
  "BUZZ-" +:+ pretty (code_number c).

Definition status_label (s : OrderStatus.t) : string :=
  match s with
  | OrderStatus.pending_payment => "pending_payment"
  | OrderStatus.processing => "processing"
  | OrderStatus.completed => "completed"
  | OrderStatus.failed => "failed"
  | OrderStatus.refunded => "refunded"
  | OrderStatus.cancelled => "cancelled"
  end.

Section Collation.

(** The [=] of SQL between a text column of [orders] and a text of the
    request, under the collation of the column.  The schema file names
    [utf8mb4_unicode_ci], which does not tell the case of letters
    apart. *)
Variable sql_eq : string → string → Prop.
Context `{!RelDecision sql_eq}.

(** *** GET /api/orders/:orderId

    [SELECT * FROM orders WHERE order_id = ? AND user_id = ?], then
    [orders[0]]. *)
Definition get_order (d : db) (u : auth_user) (orderId : string) : reply order :=
  match filter (λ o, sql_eq (order_id_string (order_id o)) orderId
                     ∧ o_user_id o = id u) (orders d) with
  | [] => Refusal 404 "Order not found"
  | o :: _ => Reply 200 o
  end.

(** *** GET /api/orders

    The rows that [WHERE user_id = ? [AND status = ?]] selects;
    [status] is the empty string when the query has none. *)
Definition selected_orders (d : db) (uid : Z) (status : string) : list order :=
  filter (λ o, o_user_id o = uid
               ∧ (status = "" ∨ sql_eq (status_label (o_status o)) status))
         (orders d).

(** [ordered] can be the result of the statement up to [ORDER BY
    created_at DESC]: the selected rows, in some order.  The store does
    not keep [created_at], and rows of the same second come in an order
    that the engine picks. *)
Definition ordered_orders (d : db) (uid : Z) (status : string)
    (ordered : list order) : Prop :=
  ordered ≡ₚ selected_orders d uid status.

End Collation.

(** A query parameter after [parseInt]: absent from the query, not a
    number, or a number. *)
Inductive parsed_int := Absent | NotANumber | Number (n : Z).

(** [const { limit = 20 } = req.query; parseInt(limit)] and the like:
    [None] is [NaN]. *)
Definition with_default (dflt : Z) (p : parsed_int) : option Z :=
  match p with
  | Absent => Some dflt
  | NotANumber => None
  | Number n => Some n
  end.

Record pagination := {
  pg_total : Z;
  pg_limit : Z;
  pg_offset : Z
}.

(** The handler, given the ordered rows that [LIMIT] and [OFFSET] cut
    the page from.  [LIMIT] and [OFFSET] take whole numbers that are
    not negative; the statement fails on anything else and the handler
    answers 500. *)
Definition list_orders (d : db) (u : auth_user) (limit offset : parsed_int)
    (ordered : list order) : reply (list order * pagination) :=
  match with_default 20 limit, with_default 0 offset with
  | Some l, Some o =>
    if decide (0 ≤ l ∧ 0 ≤ o) then
      Reply 200
        (take (Z.to_nat l) (drop (Z.to_nat o) ordered),
         {| pg_total := count_orders (λ x, o_user_id x = id u) d;
            pg_limit := l; pg_offset := o |})
    else Refusal 500 "Server error"
  | _, _ => Refusal 500 "Server error"
  end.

(** A collation for the examples: two texts are the same when they are
    the same after their letters [A] to [Z] are put in lower case. *)
Definition lower_case (c : ascii) : ascii :=
  let n := N_of_ascii c in
  if decide (65 ≤ n ≤ 90)%N then ascii_of_N (n + 32) else c.

Fixpoint lower (s : string) : string :=
  match s with
  | EmptyString => EmptyString
  | String c s' => String (lower_case c) (lower s')
  end.

Definition same_letters (s t : string) : Prop := lower s = lower t.

#[global] Instance same_letters_dec : RelDecision same_letters.
Proof. intros s t. unfold same_letters. apply _. Defined.

(** *** GET /api/data/bundles

    The handler walks the active products, which the query hands over
    ordered by network and price, and files each under its network.
    The [validity] text of a line, rendered from a column that
    [product] does not carry, is left out. *)

Record bundle_line := {
  size : string;
  price : Z
}.

(** [if (!bundles[network]) bundles[network] = [];
    bundles[network].push(line)]: the keys of the object in the order
    in which they were first set. *)
Fixpoint push_bundle (n : network_name) (line : bundle_line)
    (bundles : list (network_name * list bundle_line))
    : list (network_name * list bundle_line) :=
  match bundles with
  | [] => [(n, [line])]
  | (m, lines) :: rest =>
    if decide (m = n) then (m, lines ++ [line]) :: rest
    else (m, lines) :: push_bundle n line rest
  end.

Definition line_of (p : product) : bundle_line :=
  {| size := p_bundle_size p; price := p_price p |}.

(** [products.forEach(...)] *)
Definition group_bundles (products : list product)
    : list (network_name * list bundle_line) :=
  foldl (λ bundles p, push_bundle (p_network p) (line_of p) bundles) [] products.

(** [bundles[network]], [[]] standing for [undefined]. *)
Fixpoint bundles_of (n : network_name)
    (bundles : list (network_name * list bundle_line)) : list bundle_line :=
  match bundles with
  | [] => []
  | (m, lines) :: rest => if decide (m = n) then lines else bundles_of n rest
  end.

(** The rows of the statement [SELECT * FROM data_bundle_products WHERE
    status = "active" ORDER BY network, price]: the active products, in
    some order that sorts them by network (in the order of the column's
    [ENUM]) and, within a network, by price. *)
Definition network_rank (n : network_name) : Z :=
  match n with MTN => 1 | Telecel => 2 | AirtelTigo => 3 end.

Definition listed_before (p q : product) : Prop :=
  network_rank (p_network p) < network_rank (p_network q)
  ∨ (p_network p = p_network q ∧ p_price p ≤ p_price q).

#[global] Instance listed_before_dec : RelDecision listed_before.
Proof. intros p q. unfold listed_before. apply _. Defined.

Definition active_rows (d : db) (rows : list product) : Prop :=
  rows ≡ₚ filter (λ p, p_status p = active) (data_bundle_products d)
  ∧ StronglySorted listed_before rows.

(** ** Sums over the store *)

(** [SELECT SUM(balance) as total FROM wallets], then [total || 0]. *)
Definition total_wallet_balance (d : db) : Z :=
  map_fold (λ _ w total, balance w + total) 0 (wallets d).

(** ** What the operations keep *)

(** The status code of an answer. *)
Definition status_of (resp : response) : Z :=
  match resp with
  | Json status _ | Send status _ | SendStatus status => status
  end.

(** The accounts are the same in two stores: the same users and
    products, wallet rows for the same users, each with the level it
    had. *)
Definition same_accounts (d d' : db) : Prop :=
  users d' = users d
  ∧ data_bundle_products d' = data_bundle_products d
  ∧ dom (wallets d') = dom (wallets d)
  ∧ ∀ uid, level <$> wallets d' !! uid = level <$> wallets d !! uid.

(** An entry is kept: it is still the entry of the same account, with
    the same identifier, reference, kind and description, and it is
    still completed if it was. *)
Definition entry_kept (t t' : wallet_transaction) : Prop :=
  tx_user_id t' = tx_user_id t
  ∧ tx_transaction_id t' = tx_transaction_id t
  ∧ tx_reference t' = tx_reference t
  ∧ tx_type_of t' = tx_type_of t
  ∧ tx_description t' = tx_description t
  ∧ (tx_status_of t = completed → tx_status_of t' = completed).

(** ** Who is asking: the token check *)

(** JavaScript's [s.split(' ')]: the pieces of [s] between single
    spaces; a string without a space is its only piece. *)
Fixpoint split_space (s : string) : list string :=
  match s with
  | EmptyString => [""]
  | String c s' =>
    if decide (c = " "%char) then "" :: split_space s'
    else match split_space s' with
         | piece :: pieces => String c piece :: pieces
         | [] => [String c ""]
         end
  end.

(** [authHeader && authHeader.split(' ')[1]], [None] when the value is
    one that [!token] rejects: no header, no second piece, or an empty
    one. *)
Definition token_of_header (authorization : option string) : option string :=
  match authorization with
  | None => None
  | Some authHeader =>
    if decide (authHeader = "") then None
    else match split_space authHeader !! 1%nat with
         | Some token => if decide (token = "") then None else Some token
         | None => None
         end
  end.

(** [process.env.JWT_SECRET || 'your-secret-key'] *)
Definition jwt_key (jwt_secret : option string) : string :=
  match jwt_secret with
  | Some k => if decide (k = "") then "your-secret-key" else k
  | None => "your-secret-key"
  end.

Section Tokens.

(** [jwt.verify(token, key)]: the user the token was signed for, [None]
    when the callback gets an error; [jwt.sign({ id, email }, key,
    { expiresIn: '24h' })]. *)
Variable jwt_verify : string → string → option auth_user.
Variable jwt_sign : auth_user → string → string.

(** The middleware: the refusal it answers with, or the user it hands
    to the handler. *)
Definition authenticateToken (jwt_secret : option string)
    (authorization : option string) : response + auth_user :=
  match token_of_header authorization with
  | None => inl (Json 401 (Error "Access token required"))
  | Some token =>
    match jwt_verify token (jwt_key jwt_secret) with
    | None => inl (Json 403 (Error "Invalid token"))
    | Some user => inr user
    end
  end.

(** *** POST /api/signup

    Of a row of [users] the store keeps the columns that the handlers
    of this development read: [id], [full_name] and [email].
    [insertId] is the [AUTO_INCREMENT] value the store picks for the
    new row. *)

Record signup_request := {
  full_name : string;         (* the empty string when absent *)
  s_email : string;
  s_phone : string;
  password : string;
  confirm_password : string
}.

Record signed_up := {
  su_token : string;
  su_id : Z;
  su_full_name : string;
  su_email : string;
  su_phone : string
}.

(** [INSERT INTO users]: [id] is the primary key, [email] is
    [UNIQUE]. *)
Definition insert_user (x : user) (d : db) : option db :=
  if decide (u_id x ∈ u_id <$> users d ∨ u_email x ∈ u_email <$> users d)
  then None
  else Some {| users := users d ++ [x]; wallets := wallets d;
               wallet_transactions := wallet_transactions d;
               orders := orders d; order_sequence := order_sequence d;
               data_bundle_products := data_bundle_products d |}.

(** [INSERT INTO wallets (user_id, balance, level) VALUES (?, 0.00,
    "Bronze")]: [user_id] is [UNIQUE]. *)
Definition insert_wallet (uid : Z) (d : db) : option db :=
  match wallets d !! uid with
  | Some _ => None
  | None =>
    Some (set_wallets d (<[uid := {| balance := 0; level := Bronze |}]>
                           (wallets d)))
  end.

(** The two inserts are not in a transaction: when the second fails the
    first stays. *)
Definition signup (jwt_secret : option string) (d : db) (insertId : Z)
    (r : signup_request) : reply signed_up * db :=
  if decide (full_name r = "" ∨ s_email r = "" ∨ s_phone r = ""
             ∨ password r = "")
  then (Refusal 400 "All fields are required", d)
  else if decide (password r ≠ confirm_password r)
  then (Refusal 400 "Passwords do not match", d)
  else match filter (λ x, u_email x = s_email r) (users d) with
  | _ :: _ => (Refusal 409 "Email already registered", d)
  | [] =>
    match insert_user {| u_id := insertId; u_full_name := full_name r;
                         u_email := s_email r |} d with
    | None => (Refusal 500 "Server error", d)
    | Some d1 =>
      match insert_wallet insertId d1 with
      | None => (Refusal 500 "Server error", d1)
      | Some d2 =>
        (Reply 201
           {| su_token := jwt_sign {| id := insertId; email := s_email r |}
                                   (jwt_key jwt_secret);
              su_id := insertId; su_full_name := full_name r;
              su_email := s_email r; su_phone := s_phone r |}, d2)
      end
    end
  end.

End Tokens.

(** A string without a space. *)
Fixpoint spaceless (s : string) : Prop :=
  match s with
  | EmptyString => True
  | String c s' => c ≠ " "%char ∧ spaceless s'
  end.

(** Every user has a wallet row, no two users share an id or an
    address, and every wallet row and every ledger entry belongs to a
    user: what the foreign keys and sign-up maintain. *)
Definition users_have_wallets (d : db) : Prop :=
  Forall (λ x, is_Some (wallets d !! u_id x)) (users d).

Definition user_keys (d : db) : Prop :=
  NoDup (u_id <$> users d) ∧ NoDup (u_email <$> users d).

Definition rows_have_users (d : db) : Prop :=
  (∀ uid, is_Some (wallets d !! uid) → uid ∈ u_id <$> users d)
  ∧ Forall (λ t, tx_user_id t ∈ u_id <$> users d) (wallet_transactions d).

(** ** Seeding the store *)

(** [initializeDB], on tables that exist: the sequence row, the twelve
    bundles and the administrator are inserted when missing.
    [insertId] is the [AUTO_INCREMENT] value for the administrator's
    row.  An insert that fails ends the function, and what was inserted
    before stays. *)
Definition initializeDB (d : db) (insertId : Z) : db :=
  let d1 :=
    match order_sequence d with
    | [] => set_order_sequence d [4000]
    | _ :: _ => d
    end in
  let d2 :=
    match data_bundle_products d1 with
    | [] =>
      {| users := users d1; wallets := wallets d1;
         wallet_transactions := wallet_transactions d1; orders := orders d1;
         order_sequence := order_sequence d1;
         data_bundle_products := catalogue |}
    | _ :: _ => d1
    end in
  match filter (λ x, u_email x = "admin@buybuzz.com") (users d2) with
  | _ :: _ => d2
  | [] =>
    match insert_user {| u_id := insertId; u_full_name := "System Admin";
                         u_email := "admin@buybuzz.com" |} d2 with
    | Some d3 => d3
    | None => d2
    end
  end.

(** The tables right after their creation. *)
Definition empty_db : db :=
  {| users := []; wallets := ∅; wallet_transactions := []; orders := [];
     order_sequence := []; data_bundle_products := [] |}.

(** The administrator's address is in [users]. *)
Definition admin_email_taken (d : db) : Prop :=
  filter (λ x, u_email x = "admin@buybuzz.com") (users d) ≠ [].

(** A sign-up and a stand-in for the signing of tokens, for the
    examples. *)
Definition ama_signs_up : signup_request :=
  {| full_name := "Ama"; s_email := "ama@example.com";
     s_phone := "0241234567"; password := "s3cret"; confirm_password := "s3cret" |}.

Definition toy_sign (x : auth_user) (key : string) : string :=
  email x +:+ "." +:+ key.

(** Case analysis on every test and every [match] of a handler. *)
Ltac by_cases := repeat (first [case_decide | case_match]).

(** ** Reading a wallet *)

(** C10. An account without a row in [wallets] gets, from the wallet
    page and from the dashboard alike, an answer with status 200 whose
    wallet is the default one: balance 0, level Bronze. *)
Theorem missing_wallet_reads_default (d : db) (u : auth_user) :
  wallets d !! id u = None →
  let bronze0 := {| wv_user_id := None; wv_balance := 0; wv_level := Bronze |} in
  (∃ ts, get_wallet d u = Json 200 (WalletPage bronze0 ts))
  ∧ (∃ name s, dashboard d u = Json 200 (DashboardPage name bronze0 s)).
Proof.
  intros Hnone bronze0. unfold get_wallet, dashboard, wallet_or_default.
  rewrite Hnone. simpl. split; eauto.
Qed.

Lemma missing_wallet_reads_default_witness :
  wallets (store 5000 []) !! id (token_of admin) = None
  ∧ (∃ ts, get_wallet (store 5000 []) (token_of admin)
           = Json 200 (WalletPage default_wallet ts))
  ∧ (∃ name s, dashboard (store 5000 []) (token_of admin)
               = Json 200 (DashboardPage name default_wallet s)).
Proof.
  split; [reflexivity |].
  exact (missing_wallet_reads_default (store 5000 []) (token_of admin)
           eq_refl).
Defined.

(** ** Purchases *)

Lemma select_product_network (n s : string) (d : db) (p : product) (ps : list product) :
  select_product n s d = p :: ps →
  n ∈ ["MTN"; "Telecel"; "AirtelTigo"] ∧ p_bundle_size p = s.
Proof.
  intros Hsel.
  assert (Hin : p ∈ select_product n s d) by (rewrite Hsel; left).
  apply list_elem_of_filter in Hin as [(Hn & Hs & _) _].
  split; [| done]. subst n. destruct (p_network p); set_solver.
Qed.

Lemma buy_statements_inv (u : auth_user) (now : Z) (rnd : string)
    (r : buy_request) (price : Z) (orderId : order_code) (d d' : db) :
  buy_statements u now rnd r price orderId d = Some d' →
  (orderId ∉ order_id <$> orders d)
  ∧ d' = {| users := users d;
            wallets := alter (add_balance (- price)) (id u) (wallets d);
            wallet_transactions :=
              wallet_transactions d ++ [purchase_entry u now rnd r price];
            orders := orders d ++ [purchase_order u r price orderId];
            order_sequence := (λ n, n + 1) <$> order_sequence d;
            data_bundle_products := data_bundle_products d |}.
Proof.
  unfold buy_statements, insert_wallet_transaction, insert_order. simpl.
  intros H. case_decide; simplify_eq/=. case_decide; simplify_eq/=. done.
Qed.

Lemma buy_success_inv (d : db) (u : auth_user) (now : Z) (rnd : string)
    (r : buy_request) (resp : response) (d' : db) (c : Z) :
  buy d u now rnd r = (resp, d') →
  issued_code resp = Some c →
  ∃ p ps w last_number ns,
    select_product (network r) (bundle_size r) d = p :: ps
    ∧ wallets d !! id u = Some w
    ∧ ¬ js_string_lt (decimal_text (balance w)) (decimal_text (p_price p))
    ∧ order_sequence d = last_number :: ns
    ∧ c = last_number + 1
    ∧ resp = Json 200 (PurchaseInitiated (BUZZ c) (p_price p)
                         OrderStatus.processing (beneficiary_number r))
    ∧ buy_statements u now rnd r (p_price p) (BUZZ c) d = Some d'.
Proof.
  unfold buy, buy_prepare, buy_commit. intros Hbuy Hcode.
  by_cases; simplify_eq/=.
  eexists _, _, _, _, _. split_and!; eauto.
Qed.

(** The code of the answer is the one the handler computed when it
    read the counter. *)
Lemma buy_success_prepare (d : db) (u : auth_user) (now : Z) (rnd : string)
    (r : buy_request) (resp : response) (d' : db) (c : Z) :
  buy d u now rnd r = (resp, d') →
  issued_code resp = Some c →
  ∃ amt, buy_prepare d u r = inr (amt, BUZZ c).
Proof.
  unfold buy, buy_prepare, buy_commit. intros Hbuy Hcode.
  by_cases; simplify_eq/=. eauto.
Qed.

Lemma buy_failure_keeps_store (d : db) (u : auth_user) (now : Z) (rnd : string)
    (r : buy_request) (resp : response) (d' : db) :
  buy d u now rnd r = (resp, d') →
  issued_code resp = None →
  d' = d.
Proof.
  unfold buy, buy_prepare, buy_commit. intros Hbuy Hcode.
  by_cases; by simplify_eq/=.
Qed.

(** C5, at a balance of 9.00 and the bundle of 10.00.  The handler
    compares the texts [9.00] and [10.00]; the first is not before the
    second, since [9] comes after [1].  So the purchase is not refused:
    it is answered 200 with the code [BUZZ-4001], the balance becomes
    -1.00, the order and the ledger entry are written and the counter
    moves to 4001. *)
Lemma purchase_beyond_balance_goes_through :
  let d := store 900 [] in
  let r := mtn_1gb "0241234567" in
  let '(resp, d') := buy d (token_of ama) 1700000000001 "p0o9i8u7y" r in
  p_price <$> select_product (network r) (bundle_size r) d = [1000]
  ∧ balance_of 2 d = 900
  ∧ decimal_text 900 = "9.00" ∧ decimal_text 1000 = "10.00"
  ∧ ¬ js_string_lt "9.00" "10.00"
  ∧ resp = Json 200 (PurchaseInitiated (BUZZ 4001) 1000 OrderStatus.processing
                                       "0241234567")
  ∧ balance_of 2 d' = -100
  ∧ order_id <$> orders d' = [BUZZ 4001]
  ∧ order_sequence d' = [4001]
  ∧ (tx_type_of <$> wallet_transactions d', tx_amount <$> wallet_transactions d')
    = ([debit], [1000]).
Proof. vm_compute. split_and!; done. Qed.

(** C6, as the source has it.  A purchase that goes through appends
    exactly one ledger entry, completed, of kind [debit], for the price,
    and exactly one order, in status [processing], for the price; the
    buyer's balance drops by the price; the order's code is the counter
    plus one, which no stored order has, and which exceeds every stored
    code whenever the stored codes do not exceed the counter. *)
Theorem purchase_writes_debit_entry_and_order
    (d : db) (u : auth_user) (now : Z) (rnd : string) (r : buy_request)
    (code : order_code) (amt : Z) (st : OrderStatus.t) (to : string) (d' : db) :
  buy d u now rnd r = (Json 200 (PurchaseInitiated code amt st to), d') →
  (∃ e, wallet_transactions d' = wallet_transactions d ++ [e]
        ∧ tx_user_id e = id u ∧ tx_type_of e = debit
        ∧ tx_status_of e = completed ∧ tx_amount e = amt)
  ∧ (∃ o, orders d' = orders d ++ [o]
          ∧ order_id o = code ∧ o_user_id o = id u
          ∧ o_status o = OrderStatus.processing ∧ o_amount o = amt)
  ∧ (∃ w, wallets d !! id u = Some w
          ∧ wallets d' !! id u
            = Some {| balance := balance w - amt; level := level w |})
  ∧ head (p_price <$> select_product (network r) (bundle_size r) d) = Some amt
  ∧ head (order_sequence d) = Some (code_number code - 1)
  ∧ (∀ o, o ∈ orders d → order_id o ≠ code)
  ∧ (seq_ok d → ∀ o, o ∈ orders d → code_number (order_id o) < code_number code).
Proof.
  destruct code as [c]. intros Hbuy.
  destruct (buy_success_inv _ _ _ _ _ _ _ c Hbuy)
    as (p & ps & w & n & ns & Hsel & Hw & Hle & Hseq & Hc & Hresp & Hst);
    [done |].
  simplify_eq. apply buy_statements_inv in Hst as [Hfresh ->]. simpl.
  split_and!.
  - eexists. split; [reflexivity |]. done.
  - eexists. split; [reflexivity |]. done.
  - exists w. split; [done |]. by rewrite lookup_alter_eq, Hw.
  - by rewrite Hsel.
  - rewrite Hseq. simpl. f_equal. lia.
  - intros o Ho Heq. apply Hfresh. rewrite <- Heq.
    by apply list_elem_of_fmap_2.
  - unfold seq_ok. rewrite Hseq. intros Hok o Ho.
    rewrite Forall_forall in Hok. specialize (Hok o Ho). simpl in Hok. lia.
Qed.

Lemma purchase_writes_debit_entry_and_order_witness :
  ∃ e, wallet_transactions
         (buy (store 5000 []) (token_of ama) 1700000000002 "a1b2c3d4e"
              (mtn_5gb "0241234567")).2
       = [] ++ [e]
       ∧ tx_user_id e = 2 ∧ tx_type_of e = debit
       ∧ tx_status_of e = completed ∧ tx_amount e = 4000.
Proof.
  refine (proj1 (purchase_writes_debit_entry_and_order (store 5000 [])
            (token_of ama) 1700000000002 "a1b2c3d4e" (mtn_5gb "0241234567")
            (BUZZ 4001) 4000 OrderStatus.processing "0241234567" _ _)).
  vm_compute. reflexivity.
Defined.

(** C6, at a balance of 50.00 and the bundle of 40.00: the purchase
    goes through, the balance is 10.00, the order [BUZZ-4001] is in
    [processing], and the one ledger entry that records it is of kind
    [debit]: the store holds no entry of kind [purchase]. *)
Lemma purchase_entry_is_not_of_kind_purchase :
  let '(resp, d') :=
    buy (store 5000 []) (token_of ama) 1700000000002 "a1b2c3d4e"
        (mtn_5gb "0241234567") in
  resp = Json 200 (PurchaseInitiated (BUZZ 4001) 4000 OrderStatus.processing
                                     "0241234567")
  ∧ balance <$> wallets d' !! 2 = Some 1000
  ∧ tx_type_of <$> wallet_transactions d' = [debit]
  ∧ filter (λ t, tx_type_of t = purchase) (wallet_transactions d') = [].
Proof. vm_compute. done. Qed.

(** ** Order codes *)

Lemma buy_success_bumps (d : db) (u : auth_user) (now : Z) (rnd : string)
    (r : buy_request) (resp : response) (d' : db) (c : Z) :
  buy d u now rnd r = (resp, d') →
  issued_code resp = Some c →
  head (order_sequence d) = Some (c - 1)
  ∧ head (order_sequence d') = Some c
  ∧ (seq_ok d → seq_ok d').
Proof.
  intros Hbuy Hc.
  destruct (buy_success_inv _ _ _ _ _ _ _ _ Hbuy Hc)
    as (p & ps & w & n & ns & _ & _ & _ & Hseq & -> & _ & Hst).
  apply buy_statements_inv in Hst as [_ ->].
  unfold seq_ok. rewrite Hseq. simpl.
  split; [f_equal; lia |]. split; [done |].
  intros Hok. apply Forall_app. split.
  - eapply Forall_impl; [exact Hok |]. simpl. intros; lia.
  - constructor; [simpl; lia | constructor].
Qed.

Lemma buy_all_codes (ps : list buy_call) (d : db) :
  seq_ok d →
  StronglySorted Z.lt (buy_all d ps).1
  ∧ ∀ c, c ∈ (buy_all d ps).1 →
         ∃ n, head (order_sequence d) = Some n ∧ n < c.
Proof.
  revert d. induction ps as [| p ps IH]; intros d Hok; simpl.
  - split; [constructor | intros c Hc; by apply elem_of_nil in Hc].
  - destruct (buy d (by_user p) (at_time p) (salt p) (request p))
      as [resp d1] eqn:Hbuy.
    destruct (buy_all d1 ps) as [cs d2] eqn:Hall.
    destruct (issued_code resp) as [c |] eqn:Hc; simpl.
    + destruct (buy_success_bumps _ _ _ _ _ _ _ _ Hbuy Hc)
        as (Hbefore & Hafter & Hok').
      destruct (IH d1 (Hok' Hok)) as [Hsorted Hgt]. rewrite Hall in *.
      simpl in *. split.
      * constructor; [done |]. apply Forall_forall. intros c' Hc'.
        destruct (Hgt c' Hc') as (n & Hn & Hlt). simplify_eq. done.
      * intros c' [Heq | Hc']%elem_of_cons.
        -- exists (c - 1). split; [done | lia].
        -- destruct (Hgt c' Hc') as (n & Hn & Hlt). simplify_eq.
           exists (c - 1). split; [done | lia].
    + apply (buy_failure_keeps_store _ _ _ _ _ _ _ Hbuy) in Hc as ->.
      specialize (IH d Hok). rewrite Hall in IH. exact IH.
Qed.

(** C3, as the source has it.  The handler computes the order code from
    a read of the counter ([buy_prepare], which returns no store: it
    writes nothing); the counter is advanced later, by the transaction
    of a purchase that goes through.  When purchases are handled one
    after another, the codes they are answered with are strictly
    increasing (so distinct), and each exceeds every code stored
    before. *)
Theorem codes_increase_when_purchases_run_in_turn (d : db) (ps : list buy_call) :
  seq_ok d →
  (∀ p c,
     let answer := buy d (by_user p) (at_time p) (salt p) (request p) in
     issued_code answer.1 = Some c →
     (∃ price, buy_prepare d (by_user p) (request p) = inr (price, BUZZ c))
     ∧ head (order_sequence d) = Some (c - 1)
     ∧ head (order_sequence answer.2) = Some c)
  ∧ StronglySorted Z.lt (buy_all d ps).1
  ∧ (∀ o c, o ∈ orders d → c ∈ (buy_all d ps).1 →
            code_number (order_id o) < c).
Proof.
  intros Hok. split.
  { intros p c answer Hc. subst answer.
    destruct (buy d (by_user p) (at_time p) (salt p) (request p))
      as [resp d'] eqn:Hbuy.
    destruct (buy_success_bumps _ _ _ _ _ _ _ _ Hbuy Hc) as (? & ? & _).
    split; [| done]. by apply (buy_success_prepare _ _ _ _ _ _ _ _ Hbuy). }
  destruct (buy_all_codes ps d Hok) as [Hsorted Hgt]. split; [done |].
  intros o c Ho Hc. destruct (Hgt c Hc) as (n & Hn & Hlt).
  unfold seq_ok in Hok. destruct (order_sequence d) as [| m ms]; [done |].
  simpl in Hn. simplify_eq. rewrite Forall_forall in Hok.
  specialize (Hok o Ho). simpl in Hok. lia.
Qed.

Lemma codes_increase_when_purchases_run_in_turn_witness :
  seq_ok (store_with 5000 5000 [])
  ∧ (buy_all (store_with 5000 5000 [])
             [ama_buys 1700000000003; kofi_buys 1700000000004]).1
    = [4001; 4002]
  ∧ StronglySorted Z.lt
      (buy_all (store_with 5000 5000 [])
               [ama_buys 1700000000003; kofi_buys 1700000000004]).1.
Proof.
  assert (Hok : seq_ok (store_with 5000 5000 []))
    by (vm_compute; constructor).
  split; [exact Hok |]. split; [vm_compute; reflexivity |].
  exact (proj1 (proj2 (codes_increase_when_purchases_run_in_turn
    (store_with 5000 5000 [])
    [ama_buys 1700000000003; kofi_buys 1700000000004] Hok))).
Defined.

(** C3, two purchases whose handlers both get to the read of the
    counter before the transaction of either has run.  Up to that read
    a handler writes nothing, so both read the counter of the same
    store, 4000, and both compute [BUZZ-4001]: two allocations, one
    code. *)
Lemma overlapping_purchases_get_the_same_code :
  let d := store_with 5000 5000 [] in
  let a := ama_buys 1700000000003 in
  let k := kofi_buys 1700000000004 in
  order_sequence d = [4000]
  ∧ buy_prepare d (by_user a) (request a) = inr (4000, BUZZ 4001)
  ∧ buy_prepare d (by_user k) (request k) = inr (4000, BUZZ 4001)
  ∧ id (by_user a) ≠ id (by_user k).
Proof. vm_compute. split_and!; done. Qed.

(** ** Transfers *)

Lemma transfer_statements_inv (u : auth_user) (now_out now_in : Z)
    (r : transfer_request) (recipient : user) (d d' : db) :
  transfer_statements u now_out now_in r recipient d = Some d' →
  d' = {| users := users d;
          wallets := alter (add_balance (amount r)) (u_id recipient)
                       (alter (add_balance (- amount r)) (id u) (wallets d));
          wallet_transactions :=
            (wallet_transactions d ++ [transfer_out_entry u now_out r])
              ++ [transfer_in_entry u now_in r recipient];
          orders := orders d;
          order_sequence := order_sequence d;
          data_bundle_products := data_bundle_products d |}.
Proof.
  unfold transfer_statements, insert_wallet_transaction. simpl.
  intros H. case_decide; simplify_eq/=. case_decide; simplify_eq/=. done.
Qed.

Lemma transfer_inv (d : db) (u : auth_user) (now_out now_in : Z)
    (r : transfer_request) (resp : response) (d' : db) :
  transfer d u now_out now_in r = (resp, d') →
  d' = d
  ∨ ∃ recipient rs w,
      filter (λ x, u_email x = recipient_email r) (users d) = recipient :: rs
      ∧ 0 < amount r
      ∧ wallets d !! id u = Some w
      ∧ amount r ≤ balance w
      ∧ transfer_statements u now_out now_in r recipient d = Some d'.
Proof.
  unfold transfer. intros Htr.
  by_cases; simplify_eq/=; auto.
  all: right; eexists _, _, _; split_and!; eauto; lia.
Qed.

Lemma transfer_success_inv (d : db) (u : auth_user) (now_out now_in : Z)
    (r : transfer_request) (bal : Z) (d' : db) :
  transfer d u now_out now_in r = (Json 200 (TransferCompleted bal), d') →
  ∃ recipient rs w,
    filter (λ x, u_email x = recipient_email r) (users d) = recipient :: rs
    ∧ 0 < amount r
    ∧ wallets d !! id u = Some w
    ∧ amount r ≤ balance w
    ∧ transfer_statements u now_out now_in r recipient d = Some d'.
Proof.
  unfold transfer. intros Htr.
  by_cases; simplify_eq/=.
  eexists _, _, _; split_and!; eauto; lia.
Qed.

(** C7, as the source has it.  A transfer that goes through appends
    exactly two ledger entries, a completed [transfer_out] of the sender
    and a completed [transfer_in] of the recipient, each for the amount
    of the transfer.  Neither carries a reference, and their identifiers
    are built apart, from two readings of the clock under two prefixes:
    no field links the two. *)
Theorem transfer_writes_two_entries_without_reference
    (d : db) (u : auth_user) (now_out now_in : Z) (r : transfer_request)
    (bal : Z) (d' : db) :
  transfer d u now_out now_in r = (Json 200 (TransferCompleted bal), d') →
  ∃ recipient e_out e_in,
    head (filter (λ x, u_email x = recipient_email r) (users d))
      = Some recipient
    ∧ wallet_transactions d' = wallet_transactions d ++ [e_out; e_in]
    ∧ tx_user_id e_out = id u ∧ tx_type_of e_out = transfer_out
    ∧ tx_amount e_out = amount r ∧ tx_status_of e_out = completed
    ∧ tx_user_id e_in = u_id recipient ∧ tx_type_of e_in = transfer_in
    ∧ tx_amount e_in = amount r ∧ tx_status_of e_in = completed
    ∧ tx_transaction_id e_out = TRANSFER_OUT now_out
    ∧ tx_transaction_id e_in = TRANSFER_IN now_in
    ∧ tx_reference e_out = None ∧ tx_reference e_in = None
    ∧ ¬ linked e_out e_in.
Proof.
  intros Htr.
  destruct (transfer_success_inv _ _ _ _ _ _ _ Htr)
    as (recipient & rs & w & Hrcp & Hpos & Hw & Hle & Hst).
  apply transfer_statements_inv in Hst as ->. simpl.
  exists recipient, (transfer_out_entry u now_out r),
         (transfer_in_entry u now_in r recipient).
  split_and!; try done.
  - by rewrite Hrcp.
  - by rewrite <- app_assoc.
  - intros (ref & Hout & _). discriminate Hout.
Qed.

Lemma transfer_writes_two_entries_without_reference_witness :
  ∃ recipient e_out e_in,
    head (filter (λ x, u_email x = "kofi@example.com")
                 (users (store 3000 []))) = Some recipient
    ∧ wallet_transactions
        (transfer (store 3000 []) (token_of ama) 1700000000005 1700000000006
                  (send_to "kofi@example.com" 3000)).2
      = [] ++ [e_out; e_in]
    ∧ tx_user_id e_out = 2 ∧ tx_type_of e_out = transfer_out
    ∧ tx_amount e_out = 3000 ∧ tx_status_of e_out = completed
    ∧ tx_user_id e_in = u_id recipient ∧ tx_type_of e_in = transfer_in
    ∧ tx_amount e_in = 3000 ∧ tx_status_of e_in = completed
    ∧ tx_transaction_id e_out = TRANSFER_OUT 1700000000005
    ∧ tx_transaction_id e_in = TRANSFER_IN 1700000000006
    ∧ tx_reference e_out = None ∧ tx_reference e_in = None
    ∧ ¬ linked e_out e_in.
Proof.
  refine (transfer_writes_two_entries_without_reference (store 3000 [])
            (token_of ama) 1700000000005 1700000000006
            (send_to "kofi@example.com" 3000) 0 _ _).
  vm_compute. reflexivity.
Defined.

(** C7, the scenario of 30.00 sent from a balance of 30.00 to a balance
    of 0.00: the balances become 0.00 and 30.00 and two entries are
    written, but both have an empty reference, identifiers that differ
    and descriptions that differ: they are not linked. *)
Lemma transfer_entries_share_no_reference :
  let '(resp, d') :=
    transfer (store 3000 []) (token_of ama) 1700000000005 1700000000005
             (send_to "kofi@example.com" 3000) in
  resp = Json 200 (TransferCompleted 0)
  ∧ balance_of 2 d' = 0 ∧ balance_of 3 d' = 3000
  ∧ tx_type_of <$> wallet_transactions d' = [transfer_out; transfer_in]
  ∧ tx_reference <$> wallet_transactions d' = [None; None]
  ∧ tx_transaction_id <$> wallet_transactions d'
    = [TRANSFER_OUT 1700000000005; TRANSFER_IN 1700000000005]
  ∧ tx_description <$> wallet_transactions d'
    = ["Transfer to kofi@example.com"; "Transfer from ama@example.com"]
  ∧ ¬ ∃ e_out e_in, wallet_transactions d' = [e_out; e_in] ∧ linked e_out e_in.
Proof.
  vm_compute. split_and!; try done.
  intros (e_out & e_in & Heq & ref & Hout & _). by simplify_eq.
Qed.

(** When the recipient has a wallet and is another account than the
    sender, a transfer either changes nothing or moves the amount from
    the one wallet to the other. *)
Lemma transfer_moves_or_keeps (d : db) (u : auth_user) (now_out now_in : Z)
    (r : transfer_request) (resp : response) (d' : db) :
  transfer d u now_out now_in r = (resp, d') →
  (∀ x, x ∈ users d → u_email x = recipient_email r →
        u_id x ≠ id u ∧ is_Some (wallets d !! u_id x)) →
  d' = d
  ∨ ∃ recipient,
      head (filter (λ x, u_email x = recipient_email r) (users d))
        = Some recipient
      ∧ balance_of (id u) d' = balance_of (id u) d - amount r
      ∧ balance_of (u_id recipient) d'
        = balance_of (u_id recipient) d + amount r
      ∧ wallet_transactions d'
        = wallet_transactions d
            ++ [transfer_out_entry u now_out r;
                transfer_in_entry u now_in r recipient].
Proof.
  intros Htr Hwallet.
  destruct (transfer_inv _ _ _ _ _ _ _ Htr)
    as [-> | (recipient & rs & w & Hrcp & Hpos & Hw & Hle & Hst)]; [by left |].
  right. exists recipient.
  assert (Hin : recipient ∈ filter (λ x, u_email x = recipient_email r) (users d))
    by (rewrite Hrcp; left).
  apply list_elem_of_filter in Hin as [Hmail Hin].
  destruct (Hwallet recipient Hin Hmail) as [Hne [w_r Hw_r]].
  apply transfer_statements_inv in Hst as ->.
  unfold balance_of, wallet_or_default. simpl.
  rewrite Hrcp. split; [done |].
  rewrite lookup_alter_ne, lookup_alter_eq, Hw by done.
  rewrite lookup_alter_eq, lookup_alter_ne, Hw_r by done.
  simpl. split_and!; [lia | done | by rewrite <- app_assoc].
Qed.

(** C4, at a transfer to the seeded administrator, a user without a
    wallet row.  The transfer is answered as completed, the sender's
    balance drops from 30.00 to 0.00 and both entries are written, but
    no wallet is credited: the recipient reads a balance of 0.00 before
    and after, and the sum of all balances has dropped by 30.00. *)
Lemma transfer_to_user_without_wallet_debits_only :
  let d := store 3000 [] in
  let '(resp, d') :=
    transfer d (token_of ama) 1700000000005 1700000000006
             (send_to "admin@buybuzz.com" 3000) in
  resp = Json 200 (TransferCompleted 0)
  ∧ balance_of 2 d = 3000 ∧ balance_of 2 d' = 0
  ∧ wallets d !! 1 = None ∧ wallets d' !! 1 = None
  ∧ balance_of 1 d = 0 ∧ balance_of 1 d' = 0
  ∧ (tx_user_id <$> wallet_transactions d',
     tx_type_of <$> wallet_transactions d')
    = ([2; 1], [transfer_out; transfer_in])
  ∧ balance <$> (map_to_list (wallets d')).*2 = [0; 0].
Proof. vm_compute. done. Qed.

(** ** The webhook's signature check *)

(** The handler's own check: handed the bytes of the body, it answers
    401 "Invalid signature" when the signature header is not their HMAC
    under the configured secret. *)
Lemma webhook_on_bytes_rejects_bad_signature
    (hmac_sha512_hex : string → list Byte.byte → string)
    (parse : list Byte.byte → option event)
    (webhook_secret : option string) (d : db)
    (bytes : list Byte.byte) (signature : option string) :
  signature ≠ Some (hmac_sha512_hex (signing_key webhook_secret) bytes) →
  webhook hmac_sha512_hex parse webhook_secret d (Buffer bytes) signature
  = (Send 401 "Invalid signature", d).
Proof.
  intros Hbad. unfold webhook. rewrite decide_True; [done | congruence].
Qed.

(** Alone, the parser of the route hands the handler the bytes of a
    JSON body. *)
Lemma express_raw_alone_reads_the_bytes (r : webhook_request) :
  json_typed r = true →
  rq_body (express_raw r {| body_read := false; rq_body := Undefined |})
  = Buffer (payload r).
Proof. unfold express_raw. simpl. by intros ->. Qed.

(** Behind [express.json()] it never does. *)
Lemma no_buffer_behind_express_json (r : webhook_request) (st : parsing) :
  express_json r {| body_read := false; rq_body := Undefined |} = Some st →
  rq_body (express_raw r st) = Parsed.
Proof.
  unfold express_json, express_raw. simpl.
  destruct (json_typed r) eqn:Htyped, (readable r); intros; simplify_eq/=;
    by rewrite ?Htyped.
Qed.

Lemma post_webhook_keeps_store
    (hmac_sha512_hex : string → list Byte.byte → string)
    (parse : list Byte.byte → option event)
    (webhook_secret : option string) (d : db) (r : webhook_request) :
  (post_webhook hmac_sha512_hex parse webhook_secret d r).2 = d.
Proof.
  unfold post_webhook.
  destruct (express_json r _) as [st |] eqn:Hjson; [| done].
  by rewrite (no_buffer_behind_express_json r st Hjson).
Qed.

(** C9.  Whatever the request to the webhook route and whatever its
    signature header, the matching one included, the answer is never
    401 "Invalid signature": it is 500, "Webhook processing failed"
    from the handler's [catch] or the answer of the error handler, and
    the store is left as it was.  So a request with a JSON body and a
    signature that does not match is answered 500 "Webhook processing
    failed". *)
Theorem webhook_answers_500_whatever_the_signature
    (hmac_sha512_hex : string → list Byte.byte → string)
    (parse : list Byte.byte → option event)
    (webhook_secret : option string) (d : db) (r : webhook_request) :
  let answer := exec hmac_sha512_hex parse d (Notification webhook_secret r) in
  answer.2 = d
  ∧ answer.1 ≠ Send 401 "Invalid signature"
  ∧ (answer.1 = Send 500 "Webhook processing failed"
     ∨ answer.1 = Json 500 InternalServerError)
  ∧ (json_typed r = true → readable r = true →
     answer.1 = Send 500 "Webhook processing failed").
Proof.
  simpl. unfold post_webhook.
  destruct (express_json r _) as [st |] eqn:Hjson.
  - rewrite (no_buffer_behind_express_json r st Hjson). simpl.
    split_and!; [done | discriminate | by left | done].
  - simpl. split_and!; [done | discriminate | by right |].
    intros Htyped Hread. unfold express_json in Hjson. simpl in Hjson.
    rewrite Htyped, Hread in Hjson. discriminate.
Qed.

(** The notification of the payment of [R1], with a signature that does
    not match and with the one that does: both are answered 500, and
    the top-up stays pending. *)
Lemma notification_of_R1_is_answered_500 :
  let d := store 0 [pending_R1] in
  let deliver signature :=
    exec toy_digest toy_parse d (Notification (Some "whsec")
                                              (notified_R1 signature)) in
  toy_digest (signing_key (Some "whsec")) (payload (notified_R1 None)) = "00"
  ∧ deliver (Some "ff") = (Send 500 "Webhook processing failed", d)
  ∧ deliver (Some "00") = (Send 500 "Webhook processing failed", d)
  ∧ select_pending "R1" d = [pending_R1].
Proof. vm_compute. done. Qed.

(** ** Settling a top-up *)

Lemma select_pending_after_completion (ref : string) (amt : Z)
    (ts : list wallet_transaction) :
  filter (λ t, tx_reference t = Some ref ∧ tx_status_of t = pending)
    ((λ t, if decide (tx_reference t = Some ref) then settle_with amt t else t)
       <$> ts)
  = [].
Proof.
  induction ts as [| t ts IH]; [done |]. rewrite fmap_cons.
  rewrite filter_cons_False; [exact IH |].
  intros [Href Hst]. case_decide as Hdec; simpl in *; [discriminate | done].
Qed.

(** A notification that is delivered again changes nothing: whatever
    the first delivery did, the second finds no pending entry under the
    reference. *)
Lemma reconcile_replay (d : db) (e : event) :
  (reconcile (reconcile d e).2 e).2 = (reconcile d e).2.
Proof.
  unfold reconcile at 2 3.
  case_decide as Hev; [| unfold reconcile; by rewrite decide_False].
  destruct (ev_data e) as [c |] eqn:Hdata;
    [| unfold reconcile; by rewrite decide_True, Hdata].
  destruct (select_pending (ch_reference c) d) as [| t ts] eqn:Hsel; simpl.
  - unfold reconcile. by rewrite decide_True, Hdata, Hsel.
  - unfold reconcile. rewrite decide_True, Hdata by done.
    unfold select_pending at 1. simpl.
    by rewrite select_pending_after_completion.
Qed.

(** C1, at the pending top-up [R1] of 20.00.  A manual verification
    completes the entry and credits 20.00; a second manual verification
    of the same reference finds no pending entry and credits 20.00
    again: the ledger still holds the one entry of 20.00, and the
    balance is 40.00. *)
Lemma manual_verification_credits_again :
  let d0 := store 0 [pending_R1] in
  let d1 := (verify d0 (token_of ama) "R1" success_2000).2 in
  let d2 := (verify d1 (token_of ama) "R1" success_2000).2 in
  select_pending "R1" d0 = [pending_R1]
  ∧ balance_of 2 d0 = 0
  ∧ balance_of 2 d1 = 2000 ∧ select_pending "R1" d1 = []
  ∧ balance_of 2 d2 = 4000
  ∧ (tx_amount <$> wallet_transactions d2, tx_status_of <$> wallet_transactions d2)
    = ([2000], [completed]).
Proof. vm_compute. done. Qed.

(** ** The reconstruction invariant *)

Lemma net_app (uid : Z) (ts ts' : list wallet_transaction) :
  net uid (ts ++ ts') = net uid ts + net uid ts'.
Proof. induction ts as [| t ts IH]; simpl; [done | rewrite IH; lia]. Qed.

(** One wallet moves by [delta] and one completed entry of that account,
    worth [delta], is appended. *)
Lemma reconstructs_step (d d' : db) (k delta : Z) (t : wallet_transaction) :
  reconstructs d →
  wallets d' = alter (add_balance delta) k (wallets d) →
  wallet_transactions d' = wallet_transactions d ++ [t] →
  tx_user_id t = k → tx_status_of t = completed → signed t = delta →
  reconstructs d'.
Proof.
  intros Hrec Hws Hts Huser Hst Hsigned uid w' Hw'.
  rewrite Hts, net_app. simpl. unfold counts_for. rewrite Hws in Hw'.
  destruct (decide (k = uid)) as [-> | Hne].
  - rewrite lookup_alter_eq in Hw'.
    destruct (wallets d !! uid) as [w |] eqn:Hw; simplify_eq/=.
    rewrite decide_True by done. rewrite (Hrec _ _ Hw). lia.
  - rewrite lookup_alter_ne in Hw' by done.
    rewrite decide_False by (intros [? _]; congruence).
    rewrite (Hrec _ _ Hw'). lia.
Qed.

(** A purchase keeps the reconstruction invariant. *)
Lemma buy_keeps_reconstruction (d : db) (u : auth_user) (now : Z)
    (rnd : string) (r : buy_request) :
  reconstructs d → reconstructs (buy d u now rnd r).2.
Proof.
  intros Hrec. destruct (buy d u now rnd r) as [resp d'] eqn:Hbuy. simpl.
  destruct (issued_code resp) as [c |] eqn:Hc.
  - destruct (buy_success_inv _ _ _ _ _ _ _ _ Hbuy Hc)
      as (p & ps & w & n & ns & _ & _ & _ & _ & _ & _ & Hst).
    apply buy_statements_inv in Hst as [_ ->].
    by eapply (reconstructs_step d _ (id u) (- p_price p)
                 (purchase_entry u now rnd r (p_price p))).
  - by rewrite (buy_failure_keeps_store _ _ _ _ _ _ _ Hbuy Hc).
Qed.

(** A transfer keeps the reconstruction invariant. *)
Lemma transfer_keeps_reconstruction (d : db) (u : auth_user)
    (now_out now_in : Z) (r : transfer_request) :
  reconstructs d → reconstructs (transfer d u now_out now_in r).2.
Proof.
  intros Hrec.
  destruct (transfer d u now_out now_in r) as [resp d'] eqn:Htr. simpl.
  destruct (transfer_inv _ _ _ _ _ _ _ Htr)
    as [-> | (recipient & rs & w & _ & _ & _ & _ & Hst)]; [done |].
  apply transfer_statements_inv in Hst as ->.
  eapply (reconstructs_step
            (set_wallet_transactions (update_balance (id u) (- amount r) d)
               (wallet_transactions d ++ [transfer_out_entry u now_out r]))
            _ (u_id recipient) (amount r)
            (transfer_in_entry u now_in r recipient)); try done.
  by eapply (reconstructs_step d _ (id u) (- amount r)
               (transfer_out_entry u now_out r)).
Qed.

Lemma net_complete_by_reference (uid : Z) (ref : string) (amt : Z)
    (ts : list wallet_transaction) :
  net uid ((λ t, if decide (tx_reference t = Some ref)
                 then settle_with amt t else t) <$> ts)
  = net uid ts
    + net uid (settle_with amt
                 <$> filter (λ x, tx_reference x = Some ref) ts)
    - net uid (filter (λ x, tx_reference x = Some ref) ts).
Proof.
  induction ts as [| t ts IH]; [done |].
  rewrite fmap_cons. cbn [net]. rewrite IH.
  destruct (decide (tx_reference t = Some ref)) as [Href | Href].
  - rewrite filter_cons_True by done. rewrite fmap_cons. cbn [net]. lia.
  - rewrite filter_cons_False by done. lia.
Qed.

(** A notification keeps the reconstruction invariant when its
    reference names at most one entry, a top-up. *)
Lemma reconcile_keeps_reconstruction (d : db) (e : event) :
  (∀ c, ev_data e = Some c → names_one_topup (ch_reference c) d) →
  reconstructs d → reconstructs (reconcile d e).2.
Proof.
  intros Hone Hrec. unfold reconcile.
  case_decide as Hev; [| done].
  destruct (ev_data e) as [c |] eqn:Hdata; [| done].
  destruct (select_pending (ch_reference c) d) as [| t ts'] eqn:Hsel; [done |].
  simpl. destruct (Hone c eq_refl) as [Hlen Hcredit].
  assert (Hin : t ∈ select_pending (ch_reference c) d) by (rewrite Hsel; left).
  apply list_elem_of_filter in Hin as [[Href Hpending] Hin].
  assert (Hrow : t ∈ filter (λ x, tx_reference x = Some (ch_reference c))
                        (wallet_transactions d))
    by (by apply list_elem_of_filter).
  destruct (filter (λ x, tx_reference x = Some (ch_reference c))
              (wallet_transactions d)) as [| t0 [| t1 rows]] eqn:Hrows;
    [by apply elem_of_nil in Hrow | | simpl in Hlen; lia].
  apply list_elem_of_singleton in Hrow as <-.
  apply Forall_inv in Hcredit.
  intros uid w' Hw'.
  unfold update_balance, complete_by_reference, set_wallets,
    set_wallet_transactions in *. cbn [wallets wallet_transactions] in *.
  rewrite net_complete_by_reference, Hrows. simpl. unfold counts_for, signed.
  simpl. rewrite Hcredit, Hpending.
  rewrite (decide_False (P := _ ∧ pending = completed)) by (by intros [_ ?]).
  destruct (decide (tx_user_id t = uid)) as [Heq | Hne].
  - rewrite Heq in *. rewrite lookup_alter_eq in Hw'.
    destruct (wallets d !! uid) as [w |] eqn:Hw; simplify_eq/=.
    rewrite decide_True by done. rewrite (Hrec _ _ Hw). lia.
  - rewrite lookup_alter_ne in Hw' by done.
    rewrite decide_False by (intros [? _]; congruence).
    rewrite (Hrec _ _ Hw'). lia.
Qed.

(** C2, at the pending top-up [R1] of 20.00.  The invariant holds
    before and after the first manual verification; after the second
    one the wallet holds 40.00 while the completed entries of the
    account add up to 20.00. *)
Lemma manual_verification_breaks_reconstruction :
  let d0 := store 0 [pending_R1] in
  let d1 := (verify d0 (token_of ama) "R1" success_2000).2 in
  let d2 := (verify d1 (token_of ama) "R1" success_2000).2 in
  reconstructs d0 ∧ reconstructs d1
  ∧ balance_of 2 d2 = 4000 ∧ net 2 (wallet_transactions d2) = 2000
  ∧ ¬ reconstructs d2.
Proof.
  simpl. split_and!.
  - apply (bool_decide_unpack _). by vm_compute.
  - apply (bool_decide_unpack _). by vm_compute.
  - by vm_compute.
  - by vm_compute.
  - intros H. specialize (H 2 {| balance := 4000; level := Bronze |}).
    vm_compute in H. specialize (H eq_refl). discriminate H.
Qed.

(** ** Balances below zero *)

(** C8, at a balance of 5.00 and the bundle of 40.00.  The handler
    compares the texts [5.00] and [40.00]; the first is not before the
    second, since [5] comes after [4].  So the purchase goes through,
    and the balance, which was not negative, is -35.00. *)
Lemma purchase_drives_balance_below_zero :
  let d := store 500 [] in
  let op := Purchase (token_of ama) 1700000000002 "a1b2c3d4e"
                     (mtn_5gb "0241234567") in
  let '(resp, d') := exec toy_digest toy_parse d op in
  0 ≤ balance_of 2 d
  ∧ decimal_text 500 = "5.00" ∧ decimal_text 4000 = "40.00"
  ∧ ¬ js_string_lt "5.00" "40.00"
  ∧ resp = Json 200 (PurchaseInitiated (BUZZ 4001) 4000 OrderStatus.processing
                                       "0241234567")
  ∧ balance_of 2 d' = -3500
  ∧ balance_of 2 d' < 0.
Proof. vm_compute. split_and!; done. Qed.

(** ** The other tables *)

(** Starting a top-up records one pending entry of kind [credit] and
    touches no wallet. *)
Lemma topup_initialize_records_pending (d : db) (u : auth_user) (now : Z)
    (rnd : string) (amt : Z) (started : option string) (ref : string) (d' : db) :
  topup_initialize d u now rnd amt started = (Json 200 (TopupStarted ref), d') →
  0 < amt
  ∧ wallets d' = wallets d
  ∧ wallet_transactions d'
    = wallet_transactions d
        ++ [{| tx_user_id := id u; tx_transaction_id := PAY now rnd;
               tx_reference := Some ref; tx_type_of := credit;
               tx_amount := amt; tx_status_of := pending;
               tx_description := "Wallet top-up via Paystack" |}].
Proof.
  unfold topup_initialize, insert_wallet_transaction. intros H.
  by_cases; simplify_eq/=.
  split_and!; [lia | done | done].
Qed.

(** Only a purchase writes to [orders] and to [order_sequence], so the
    stored codes never exceed the counter. *)
Lemma exec_keeps_seq_ok
    (hmac_sha512_hex : string → list Byte.byte → string)
    (parse : list Byte.byte → option event) (d : db) (op : operation) :
  seq_ok d → seq_ok (exec hmac_sha512_hex parse d op).2.
Proof.
  intros Hok. destruct op as [secret rq | u ref answer
                             | u now rnd r | u now_out now_in r]; simpl.
  - by rewrite post_webhook_keeps_store.
  - unfold verify. by_cases; done.
  - destruct (buy d u now rnd r) as [resp d'] eqn:Hbuy. simpl.
    destruct (issued_code resp) as [c |] eqn:Hc.
    + by apply (buy_success_bumps _ _ _ _ _ _ _ _ Hbuy Hc).
    + by rewrite (buy_failure_keeps_store _ _ _ _ _ _ _ Hbuy Hc).
  - destruct (transfer d u now_out now_in r) as [resp d'] eqn:Htr. simpl.
    destruct (transfer_inv _ _ _ _ _ _ _ Htr)
      as [-> | (recipient & rs & w & _ & _ & _ & _ & Hst)]; [done |].
    by apply transfer_statements_inv in Hst as ->.
Qed.

(** ** Reading orders *)

Lemma no_order_under_new_text (sql_eq : string → string → Prop)
    `{!RelDecision sql_eq} (os : list order) (orderId : string) (uid : Z) :
  (∀ o, o ∈ os → ¬ sql_eq (order_id_string (order_id o)) orderId) →
  filter (λ o, sql_eq (order_id_string (order_id o)) orderId
               ∧ o_user_id o = uid) os = [].
Proof.
  intros Hnew. induction os as [| o os IH]; [done |].
  rewrite filter_cons_False by (intros [? _]; by apply (Hnew o); [left |]).
  apply IH. intros o' Ho'. apply Hnew. by right.
Qed.

(** X1. The order of a purchase that went through can be read back by
    the buyer under the code of the answer, and under any text that the
    collation does not tell apart from the code, given that no order
    stored before has an id that the collation equates with that text;
    it is the order that was written, in status [processing].  Any
    other account asking under that text is told "Order not found". *)
Theorem purchased_order_is_read_back_by_buyer_only
    (sql_eq : string → string → Prop) `{!RelDecision sql_eq}
    (d : db) (u : auth_user) (now : Z) (rnd : string) (r : buy_request)
    (code : order_code) (amt : Z) (st : OrderStatus.t) (to : string) (d' : db)
    (orderId : string) :
  buy d u now rnd r = (Json 200 (PurchaseInitiated code amt st to), d') →
  sql_eq (order_id_string code) orderId →
  (∀ o, o ∈ orders d → ¬ sql_eq (order_id_string (order_id o)) orderId) →
  get_order sql_eq d' u orderId = Reply 200 (purchase_order u r amt code)
  ∧ ∀ v, id v ≠ id u →
         get_order sql_eq d' v orderId = Refusal 404 "Order not found".
Proof.
  destruct code as [c]. intros Hbuy Hsame Hnew.
  destruct (buy_success_inv _ _ _ _ _ _ _ c Hbuy)
    as (p & ps & w & n & ns & _ & _ & _ & _ & _ & Hresp & Hst); [done |].
  simplify_eq. apply buy_statements_inv in Hst as [_ ->].
  unfold get_order. simpl. split.
  - rewrite filter_app, (no_order_under_new_text sql_eq _ _ _ Hnew). simpl.
    by rewrite filter_cons_True.
  - intros v Hv.
    rewrite filter_app, (no_order_under_new_text sql_eq _ _ _ Hnew). simpl.
    rewrite filter_cons_False; [done |]. simpl. intros [_ ?]. done.
Qed.

Lemma purchased_order_is_read_back_by_buyer_only_witness :
  get_order same_letters
    (buy (store 5000 []) (token_of ama) 1700000000002 "a1b2c3d4e"
         (mtn_5gb "0241234567")).2
    (token_of ama) "buzz-4001"
  = Reply 200 (purchase_order (token_of ama) (mtn_5gb "0241234567") 4000
                              (BUZZ 4001)).
Proof.
  refine (proj1 (purchased_order_is_read_back_by_buyer_only same_letters
            (store 5000 []) (token_of ama) 1700000000002 "a1b2c3d4e"
            (mtn_5gb "0241234567") (BUZZ 4001) 4000 OrderStatus.processing
            "0241234567" _ "buzz-4001" _ _ _)).
  - vm_compute. reflexivity.
  - vm_compute. reflexivity.
  - intros o Ho. vm_compute in Ho. by apply elem_of_nil in Ho.
Defined.

(** X3. Whatever order the engine gives the selected rows, a page of
    the order list holds the rows that are left from [offset] on, up to
    [limit] of them; each is a stored order of the asking account that
    has the status asked for, if one was asked for.  The [total] of the
    pagination counts all the orders of the account, whatever the
    status asked for. *)
Theorem list_orders_page_and_total
    (sql_eq : string → string → Prop) `{!RelDecision sql_eq}
    (d : db) (u : auth_user) (status : string) (l o : Z)
    (ordered : list order) :
  ordered_orders sql_eq d (id u) status ordered →
  0 ≤ l → 0 ≤ o →
  ∃ page pg,
    list_orders d u (Number l) (Number o) ordered = Reply 200 (page, pg)
    ∧ Z.of_nat (length page)
      = Z.min l (Z.max 0 (Z.of_nat (length (selected_orders sql_eq d (id u) status))
                          - o))
    ∧ Forall (λ x, x ∈ orders d ∧ o_user_id x = id u
                   ∧ (status = ""
                      ∨ sql_eq (status_label (o_status x)) status)) page
    ∧ pg_total pg
      = Z.of_nat (length (filter (λ x, o_user_id x = id u) (orders d)))
    ∧ pg_limit pg = l ∧ pg_offset pg = o.
Proof.
  intros Hrows Hl Ho. unfold list_orders. simpl. rewrite decide_True by done.
  eexists _, _. split; [reflexivity |]. simpl. split_and!; try done.
  - rewrite length_take, length_drop.
    unfold ordered_orders in Hrows. rewrite (Permutation_length Hrows). lia.
  - apply Forall_take, Forall_drop. apply Forall_forall. intros x Hx.
    unfold ordered_orders in Hrows. rewrite Hrows in Hx.
    apply list_elem_of_filter in Hx as [[? ?] ?]. done.
Qed.

Lemma list_orders_page_and_total_witness :
  let d := (buy (store 5000 []) (token_of ama) 1700000000002 "a1b2c3d4e"
                (mtn_5gb "0241234567")).2 in
  let o1 := purchase_order (token_of ama) (mtn_5gb "0241234567") 4000
                           (BUZZ 4001) in
  list_orders d (token_of ama) (Number 5) (Number 0) [o1]
  = Reply 200 ([o1], {| pg_total := 1; pg_limit := 5; pg_offset := 0 |}).
Proof.
  intros d o1.
  destruct (list_orders_page_and_total same_letters d (token_of ama)
              "PROCESSING" 5 0 [o1]) as (page & pg & Heq & _).
  - vm_compute. reflexivity.
  - lia.
  - lia.
  - rewrite Heq. vm_compute in Heq. by simplify_eq.
Defined.

(** ** The bundle list *)

Lemma bundles_of_push (n m : network_name) (line : bundle_line)
    (bundles : list (network_name * list bundle_line)) :
  bundles_of n (push_bundle m line bundles)
  = if decide (m = n) then bundles_of n bundles ++ [line]
    else bundles_of n bundles.
Proof.
  induction bundles as [| [k lines] rest IH]; simpl.
  - by repeat case_decide.
  - destruct (decide (k = m)) as [-> | Hkm]; simpl.
    + by repeat case_decide.
    + rewrite IH. repeat case_decide; congruence.
Qed.

Lemma keys_of_push (m : network_name) (line : bundle_line)
    (bundles : list (network_name * list bundle_line)) :
  (push_bundle m line bundles).*1
  = if decide (m ∈ bundles.*1) then bundles.*1 else bundles.*1 ++ [m].
Proof.
  induction bundles as [| [k lines] rest IH].
  - cbn [push_bundle]. rewrite decide_False; [done | apply not_elem_of_nil].
  - cbn [push_bundle]. destruct (decide (k = m)) as [-> | Hkm].
    + rewrite !fmap_cons. cbn [fst]. rewrite decide_True; [done | left].
    + rewrite !fmap_cons, IH. cbn [fst].
      destruct (decide (m ∈ rest.*1)) as [Hin | Hnotin].
      * rewrite decide_True; [done | by right].
      * rewrite decide_False; [done |].
        rewrite not_elem_of_cons. split; [congruence | done].
Qed.

Lemma foldl_push_bundles (n : network_name) (rows : list product)
    (bundles : list (network_name * list bundle_line)) :
  bundles_of n
    (foldl (λ bundles p, push_bundle (p_network p) (line_of p) bundles)
           bundles rows)
  = bundles_of n bundles
    ++ (line_of <$> filter (λ p, p_network p = n) rows).
Proof.
  revert bundles. induction rows as [| p rows IH]; intros bundles; simpl.
  - by rewrite app_nil_r.
  - rewrite IH, bundles_of_push.
    destruct (decide (p_network p = n)) as [Hn | Hn].
    + rewrite filter_cons_True by done. by rewrite <- app_assoc.
    + by rewrite filter_cons_False by done.
Qed.

Lemma foldl_push_keys (rows : list product)
    (bundles : list (network_name * list bundle_line)) :
  NoDup bundles.*1 →
  NoDup (foldl (λ bundles p, push_bundle (p_network p) (line_of p) bundles)
               bundles rows).*1.
Proof.
  revert bundles. induction rows as [| p rows IH]; intros bundles Hnd; simpl.
  - done.
  - apply IH. rewrite keys_of_push. case_decide as Hin; [done |].
    apply NoDup_app. split_and!; [done | | apply NoDup_singleton].
    intros x Hx ->%list_elem_of_singleton. done.
Qed.

Lemma group_bundles_files_by_network_aux (rows : list product) (n : network_name) :
  bundles_of n (group_bundles rows)
  = line_of <$> filter (λ p, p_network p = n) rows
  ∧ NoDup (group_bundles rows).*1.
Proof.
  unfold group_bundles. split.
  - by rewrite foldl_push_bundles.
  - apply foldl_push_keys. constructor.
Qed.

(** X5. The bundle list files every row it is given under the row's
    network and nowhere else: the lines under a network are those of
    the rows of that network, in the order of the rows, and no network
    is listed twice. *)
Theorem group_bundles_files_by_network (rows : list product) (n : network_name) :
  bundles_of n (group_bundles rows)
  = line_of <$> filter (λ p, p_network p = n) rows
  ∧ NoDup (group_bundles rows).*1.
Proof. apply group_bundles_files_by_network_aux. Qed.

Lemma sorted_rows_of_network (n : network_name) (rows : list product) :
  StronglySorted listed_before rows →
  StronglySorted (λ a b, price a ≤ price b)
    (line_of <$> filter (λ p, p_network p = n) rows).
Proof.
  induction 1 as [| p rows Hsorted IH Hall]; [constructor |].
  destruct (decide (p_network p = n)) as [Hn | Hn].
  - rewrite filter_cons_True by done. rewrite fmap_cons. constructor; [done |].
    apply Forall_fmap, Forall_forall. intros q Hq.
    apply list_elem_of_filter in Hq as [Hqn Hq].
    rewrite Forall_forall in Hall. destruct (Hall q Hq) as [Hlt | [_ Hle]].
    + rewrite Hn, Hqn in Hlt. lia.
    + done.
  - by rewrite filter_cons_False by done.
Qed.

(** X6. Given the active products ordered by network and price, the
    bundle list shows under each network exactly the active products of
    that network (each once, no inactive one), cheapest first. *)
Theorem bundle_list_of_active_rows (d : db) (rows : list product) (n : network_name) :
  active_rows d rows →
  bundles_of n (group_bundles rows)
    ≡ₚ line_of <$> filter (λ p, p_network p = n ∧ p_status p = active)
                          (data_bundle_products d)
  ∧ StronglySorted (λ a b, price a ≤ price b)
      (bundles_of n (group_bundles rows)).
Proof.
  intros [Hperm Hsorted].
  destruct (group_bundles_files_by_network_aux rows n) as [-> _].
  split; [| by apply sorted_rows_of_network].
  rewrite Hperm, list_filter_filter. done.
Qed.

Lemma bundle_list_of_active_rows_witness :
  active_rows (store 0 []) catalogue
  ∧ bundles_of Telecel (group_bundles catalogue)
    = [ {| size := "1GB"; price := 900 |}; {| size := "2GB"; price := 1700 |};
        {| size := "5GB"; price := 3800 |}; {| size := "10GB"; price := 7200 |} ]
  ∧ StronglySorted (λ a b, price a ≤ price b)
      (bundles_of Telecel (group_bundles catalogue)).
Proof.
  assert (Hrows : active_rows (store 0 []) catalogue).
  { split; [by vm_compute |].
    apply (bool_decide_unpack _). by vm_compute. }
  split; [exact Hrows |]. split; [by vm_compute |].
  exact (proj2 (bundle_list_of_active_rows (store 0 []) catalogue Telecel Hrows)).
Defined.

(** ** The sum of the balances *)

Lemma total_of_row (ws : gmap Z wallet) (k : Z) (w : wallet) :
  ws !! k = Some w →
  map_fold (λ _ w total, balance w + total) 0 ws
  = balance w + map_fold (λ _ w total, balance w + total) 0 (delete k ws).
Proof.
  intros Hk.
  apply (map_fold_delete_L (λ (_ : Z) w total, balance w + total)); [| done].
  intros. lia.
Qed.

Lemma total_alter (ws : gmap Z wallet) (k delta : Z) :
  map_fold (λ _ w total, balance w + total) 0 (alter (add_balance delta) k ws)
  = map_fold (λ _ w total, balance w + total) 0 ws
    + (if ws !! k is Some _ then delta else 0).
Proof.
  destruct (ws !! k) as [w |] eqn:Hk.
  - rewrite (total_of_row ws k w Hk).
    rewrite (total_of_row (alter (add_balance delta) k ws) k (add_balance delta w))
      by (by rewrite lookup_alter_eq, Hk).
    replace (delete k (alter (add_balance delta) k ws)) with (delete k ws).
    + simpl. lia.
    + apply map_eq. intros j. destruct (decide (k = j)) as [-> | Hne].
      * by rewrite !lookup_delete_eq.
      * by rewrite !lookup_delete_ne, lookup_alter_ne.
  - replace (alter (add_balance delta) k ws) with ws; [lia |].
    apply map_eq. intros j. destruct (decide (k = j)) as [-> | Hne].
    + by rewrite lookup_alter_eq, Hk.
    + by rewrite lookup_alter_ne.
Qed.

(** X8. A purchase that goes through lowers the sum of all balances by
    the price in its answer; a purchase that is refused or fails leaves
    the sum as it is. *)
Theorem purchase_lowers_total_by_price
    (d : db) (u : auth_user) (now : Z) (rnd : string) (r : buy_request) :
  let answer := buy d u now rnd r in
  total_wallet_balance answer.2
  = total_wallet_balance d
    - match answer.1 with
      | Json 200 (PurchaseInitiated _ amt _ _) => amt
      | _ => 0
      end.
Proof.
  destruct (buy d u now rnd r) as [resp d'] eqn:Hbuy. simpl.
  destruct (issued_code resp) as [c |] eqn:Hc.
  - destruct (buy_success_inv _ _ _ _ _ _ _ _ Hbuy Hc)
      as (p & ps & w & n & ns & _ & Hw & _ & _ & _ & -> & Hst).
    apply buy_statements_inv in Hst as [_ ->].
    unfold total_wallet_balance. simpl. rewrite total_alter, Hw. lia.
  - rewrite (buy_failure_keeps_store _ _ _ _ _ _ _ Hbuy Hc).
    destruct resp as [st b | |]; simpl in *; try lia.
    repeat case_match; simplify_eq; lia.
Qed.

(** ** What every operation keeps *)

Lemma buy_statements_fresh (u : auth_user) (now : Z) (rnd : string)
    (r : buy_request) (price : Z) (orderId : order_code) (d d' : db) :
  buy_statements u now rnd r price orderId d = Some d' →
  DATA now rnd ∉ tx_transaction_id <$> wallet_transactions d.
Proof.
  unfold buy_statements, insert_wallet_transaction. simpl.
  intros H. case_decide; simplify_eq/=. done.
Qed.

Lemma transfer_statements_fresh (u : auth_user) (now_out now_in : Z)
    (r : transfer_request) (recipient : user) (d d' : db) :
  transfer_statements u now_out now_in r recipient d = Some d' →
  (TRANSFER_OUT now_out ∉ tx_transaction_id <$> wallet_transactions d)
  ∧ (TRANSFER_IN now_in ∉ tx_transaction_id <$> wallet_transactions d).
Proof.
  unfold transfer_statements, insert_wallet_transaction. simpl.
  intros H. case_decide as Hout; simplify_eq/=.
  case_decide as Hin; simplify_eq/=. split; [done |].
  intros Hmem. apply Hin. rewrite fmap_app. apply elem_of_app. by left.
Qed.

(** What an operation does to the store: it alters the balances of at
    most two wallet rows, replaces the ledger and may append to the
    orders and bump the counter. *)
Lemma exec_shape
    (hmac_sha512_hex : string → list Byte.byte → string)
    (parse : list Byte.byte → option event) (d : db) (op : operation) :
  ∃ k1 a1 k2 a2,
    users (exec hmac_sha512_hex parse d op).2 = users d
    ∧ data_bundle_products (exec hmac_sha512_hex parse d op).2
      = data_bundle_products d
    ∧ (wallets (exec hmac_sha512_hex parse d op).2 = wallets d
       ∨ wallets (exec hmac_sha512_hex parse d op).2
         = alter (add_balance a1) k1 (wallets d)
       ∨ wallets (exec hmac_sha512_hex parse d op).2
         = alter (add_balance a2) k2 (alter (add_balance a1) k1 (wallets d))).
Proof.
  destruct op as [secret rq | u ref answer
                 | u now rnd r | u now_out now_in r]; simpl.
  - rewrite post_webhook_keeps_store. exists 0, 0, 0, 0. auto.
  - unfold verify. by_cases; simpl; eauto 10.
    Unshelve. all: exact 0.
  - destruct (buy d u now rnd r) as [resp d'] eqn:Hbuy. simpl.
    destruct (issued_code resp) as [c |] eqn:Hc.
    + destruct (buy_success_inv _ _ _ _ _ _ _ _ Hbuy Hc)
        as (p & ps & w & n & ns & _ & _ & _ & _ & _ & _ & Hst).
      apply buy_statements_inv in Hst as [_ ->]. simpl.
      exists (id u), (- p_price p), 0, 0. auto.
    + rewrite (buy_failure_keeps_store _ _ _ _ _ _ _ Hbuy Hc).
      exists 0, 0, 0, 0. auto.
  - destruct (transfer d u now_out now_in r) as [resp d'] eqn:Htr. simpl.
    destruct (transfer_inv _ _ _ _ _ _ _ Htr)
      as [-> | (recipient & rs & w & _ & _ & _ & _ & Hst)].
    + exists 0, 0, 0, 0. auto.
    + apply transfer_statements_inv in Hst as ->. simpl.
      exists (id u), (- amount r), (u_id recipient), (amount r). auto.
Qed.

Lemma level_alter (ws : gmap Z wallet) (k delta uid : Z) :
  level <$> alter (add_balance delta) k ws !! uid = level <$> ws !! uid.
Proof.
  destruct (decide (k = uid)) as [-> | Hne].
  - rewrite lookup_alter_eq. by destruct (ws !! uid).
  - by rewrite lookup_alter_ne.
Qed.

(** X9. No core operation (notification, manual verification,
    purchase, transfer) adds or removes a user, a product or a wallet
    row, and none changes the level of a wallet: only balances move. *)
Theorem operations_keep_accounts
    (hmac_sha512_hex : string → list Byte.byte → string)
    (parse : list Byte.byte → option event) (d : db) (op : operation) :
  same_accounts d (exec hmac_sha512_hex parse d op).2.
Proof.
  destruct (exec_shape hmac_sha512_hex parse d op)
    as (k1 & a1 & k2 & a2 & Husers & Hproducts & [Hw | [Hw | Hw]]);
    (split; [done |]; split; [done |]); rewrite Hw.
  - done.
  - split; [apply dom_alter_L | intros uid; apply level_alter].
  - split; [by rewrite !dom_alter_L |].
    intros uid. by rewrite !level_alter.
Qed.

Lemma entry_kept_refl (t : wallet_transaction) : entry_kept t t.
Proof. by repeat split. Qed.

Lemma entries_kept_refl (ts : list wallet_transaction) :
  Forall2 entry_kept ts ts.
Proof. induction ts; constructor; [apply entry_kept_refl | done]. Qed.

Lemma entries_kept_settled (P : wallet_transaction → Prop)
    `{!∀ t, Decision (P t)} (amt : wallet_transaction → Z)
    (ts : list wallet_transaction) :
  Forall2 entry_kept ts
    ((λ t, if decide (P t) then settle_with (amt t) t else t) <$> ts).
Proof.
  induction ts as [| t ts IH]; [constructor |]. rewrite fmap_cons.
  constructor; [| done]. case_decide; [by repeat split | apply entry_kept_refl].
Qed.

(** The ledger after an operation: the entries that were there, kept,
    followed by the entries the operation inserted, whose identifiers
    no entry had. *)
Lemma exec_ledger
    (hmac_sha512_hex : string → list Byte.byte → string)
    (parse : list Byte.byte → option event) (d : db) (op : operation) :
  ∃ kept inserted,
    wallet_transactions (exec hmac_sha512_hex parse d op).2 = kept ++ inserted
    ∧ Forall2 entry_kept (wallet_transactions d) kept
    ∧ NoDup (tx_transaction_id <$> inserted)
    ∧ (∀ t, t ∈ inserted →
            tx_transaction_id t ∉ tx_transaction_id <$> wallet_transactions d)
    ∧ (∀ t, t ∈ inserted → tx_status_of t = completed).
Proof.
  destruct op as [secret rq | u ref answer
                 | u now rnd r | u now_out now_in r]; simpl.
  - rewrite post_webhook_keeps_store.
    exists (wallet_transactions d), []. rewrite app_nil_r.
    split_and!; [done | apply entries_kept_refl | constructor
      | by intros t ?%elem_of_nil | by intros t ?%elem_of_nil].
  - unfold verify. destruct answer as [a |]; simpl.
    + case_decide; simpl.
      * eexists _, []. rewrite app_nil_r. split; [reflexivity |].
        split_and!; [ | constructor | by intros t ?%elem_of_nil
                      | by intros t ?%elem_of_nil].
        apply (entries_kept_settled
                 (λ t, tx_reference t = Some ref ∧ tx_user_id t = id u)
                 tx_amount).
      * exists (wallet_transactions d), []. rewrite app_nil_r.
        split_and!; [done | apply entries_kept_refl | constructor
          | by intros t ?%elem_of_nil | by intros t ?%elem_of_nil].
    + exists (wallet_transactions d), []. rewrite app_nil_r.
      split_and!; [done | apply entries_kept_refl | constructor
        | by intros t ?%elem_of_nil | by intros t ?%elem_of_nil].
  - destruct (buy d u now rnd r) as [resp d'] eqn:Hbuy. simpl.
    destruct (issued_code resp) as [c |] eqn:Hc.
    + destruct (buy_success_inv _ _ _ _ _ _ _ _ Hbuy Hc)
        as (p & ps & w & n & ns & _ & _ & _ & _ & _ & _ & Hst).
      pose proof (buy_statements_fresh _ _ _ _ _ _ _ _ Hst) as Hfresh.
      apply buy_statements_inv in Hst as [_ ->]. simpl.
      eexists _, _. split; [reflexivity |].
      split_and!; [apply entries_kept_refl | apply NoDup_singleton | |].
      * by intros t ->%list_elem_of_singleton.
      * by intros t ->%list_elem_of_singleton.
    + rewrite (buy_failure_keeps_store _ _ _ _ _ _ _ Hbuy Hc).
      exists (wallet_transactions d), []. rewrite app_nil_r.
      split_and!; [done | apply entries_kept_refl | constructor
        | by intros t ?%elem_of_nil | by intros t ?%elem_of_nil].
  - destruct (transfer d u now_out now_in r) as [resp d'] eqn:Htr. simpl.
    destruct (transfer_inv _ _ _ _ _ _ _ Htr)
      as [-> | (recipient & rs & w & _ & _ & _ & _ & Hst)].
    + exists (wallet_transactions d), []. rewrite app_nil_r.
      split_and!; [done | apply entries_kept_refl | constructor
        | by intros t ?%elem_of_nil | by intros t ?%elem_of_nil].
    + destruct (transfer_statements_fresh _ _ _ _ _ _ _ Hst) as [Hout Hin].
      apply transfer_statements_inv in Hst as ->. simpl.
      exists (wallet_transactions d),
        [transfer_out_entry u now_out r; transfer_in_entry u now_in r recipient].
      split; [by rewrite <- app_assoc |].
      split_and!; [apply entries_kept_refl | | |].
      * simpl. apply NoDup_cons. split; [| apply NoDup_singleton].
        by intros ?%list_elem_of_singleton.
      * intros t [-> | ->%list_elem_of_singleton]%elem_of_cons; done.
      * intros t [-> | ->%list_elem_of_singleton]%elem_of_cons; done.
Qed.

(** X10. No core operation removes a ledger entry or changes whose
    entry it is, its identifier, reference, kind or description, and a
    completed entry stays completed: the ledger after an operation is
    the old entries, kept in this sense, followed by the entries the
    operation inserted, which are completed. *)
Theorem operations_keep_entries
    (hmac_sha512_hex : string → list Byte.byte → string)
    (parse : list Byte.byte → option event) (d : db) (op : operation) :
  ∃ kept inserted,
    wallet_transactions (exec hmac_sha512_hex parse d op).2 = kept ++ inserted
    ∧ Forall2 entry_kept (wallet_transactions d) kept
    ∧ Forall (λ t, tx_status_of t = completed) inserted.
Proof.
  destruct (exec_ledger hmac_sha512_hex parse d op)
    as (kept & inserted & Heq & Hkept & _ & _ & Hdone).
  exists kept, inserted. split_and!; [done | done |].
  by apply Forall_forall.
Qed.

(** ** Runs of purchases *)

Lemma buy_all_cons (d : db) (p : buy_call) (ps : list buy_call) :
  (buy_all d (p :: ps)).2
  = (buy_all (buy d (by_user p) (at_time p) (salt p) (request p)).2 ps).2.
Proof.
  simpl. destruct (buy d (by_user p) (at_time p) (salt p) (request p)).
  simpl. by destruct (buy_all d0 ps).
Qed.

(** X12. Purchases handled one after another, whatever their outcomes,
    keep the reconstruction invariant: when each wallet holds what the
    completed entries of its account add up to before, so it does
    after. *)
Theorem purchases_keep_reconstruction (d : db) (ps : list buy_call) :
  reconstructs d → reconstructs (buy_all d ps).2.
Proof.
  revert d. induction ps as [| p ps IH]; intros d Hrec; [done |].
  rewrite buy_all_cons. by apply IH, buy_keeps_reconstruction.
Qed.

Lemma purchases_keep_reconstruction_witness :
  reconstructs
    (buy_all (store 5000 [settled_R0])
             [ama_buys 1700000000003; ama_buys 1700000000004]).2
  ∧ balance_of 2 (buy_all (store 5000 [settled_R0])
                    [ama_buys 1700000000003; ama_buys 1700000000004]).2
    = 1000.
Proof.
  split; [| vm_compute; reflexivity].
  apply (purchases_keep_reconstruction (store 5000 [settled_R0])
           [ama_buys 1700000000003; ama_buys 1700000000004]).
  apply (bool_decide_unpack _). by vm_compute.
Defined.

(** X13. A core operation that is not answered with status 200 leaves
    the whole store as it was: a refusal or a failure writes nothing. *)
Theorem unsuccessful_operations_write_nothing
    (hmac_sha512_hex : string → list Byte.byte → string)
    (parse : list Byte.byte → option event) (d : db) (op : operation) :
  status_of (exec hmac_sha512_hex parse d op).1 ≠ 200 →
  (exec hmac_sha512_hex parse d op).2 = d.
Proof.
  destruct op as [secret rq | u ref answer
                 | u now rnd r | u now_out now_in r]; simpl.
  - intros _. apply post_webhook_keeps_store.
  - unfold verify. by by_cases.
  - destruct (buy d u now rnd r) as [resp d'] eqn:Hbuy. simpl. intros Hst.
    apply (buy_failure_keeps_store _ _ _ _ _ _ _ Hbuy).
    destruct resp as [st b | |]; [| done | done]. simpl in *.
    unfold issued_code. repeat case_match; simplify_eq; done.
  - destruct (transfer d u now_out now_in r) as [resp d'] eqn:Htr. simpl.
    intros Hst. unfold transfer in Htr. by_cases; simplify_eq/=; try done.
    match goal with
    | H : transfer_statements _ _ _ _ _ _ = Some _ |- _ =>
      apply transfer_statements_inv in H as ->
    end.
    simpl in *.
    match goal with
    | H : alter _ _ _ !! _ = None |- _ =>
      rewrite !lookup_alter_None in H; congruence
    end.
Qed.

Lemma unsuccessful_operations_write_nothing_witness :
  (exec toy_digest toy_parse (store 1000 [])
        (Transfer (token_of ama) 1700000000005 1700000000006
                  (send_to "kofi@example.com" 3000))).2
  = store 1000 [].
Proof.
  apply (unsuccessful_operations_write_nothing toy_digest toy_parse
           (store 1000 [])
           (Transfer (token_of ama) 1700000000005 1700000000006
                     (send_to "kofi@example.com" 3000))).
  vm_compute. discriminate.
Defined.

(** ** What decides the balance check of a purchase *)

(** X14. A purchase goes through when the request names an active
    bundle and a beneficiary of at most 20 characters (the width of its
    column), the text of the buyer's balance does not
    come before the text of the price in the order of strings (the
    comparison the handler makes), the stored order codes do not exceed
    the counter and the identifier built from the clock and the random
    text is not taken: the answer is 200 with the code counter plus
    one, the price and status [processing], the counter has moved to
    that code and the balance is the old one less the price, which may
    be below zero. *)
Theorem purchase_goes_through
    (d : db) (u : auth_user) (now : Z) (rnd : string) (r : buy_request)
    (p : product) (ps : list product) (w : wallet) (n : Z) (ns : list Z) :
  bundle_size r ≠ "" → beneficiary_number r ≠ "" →
  (String.length (beneficiary_number r) ≤ 20)%nat →
  select_product (network r) (bundle_size r) d = p :: ps →
  wallets d !! id u = Some w →
  ¬ js_string_lt (decimal_text (balance w)) (decimal_text (p_price p)) →
  order_sequence d = n :: ns →
  seq_ok d →
  DATA now rnd ∉ tx_transaction_id <$> wallet_transactions d →
  (buy d u now rnd r).1
    = Json 200 (PurchaseInitiated (BUZZ (n + 1)) (p_price p)
                  OrderStatus.processing (beneficiary_number r))
  ∧ head (order_sequence (buy d u now rnd r).2) = Some (n + 1)
  ∧ balance_of (id u) (buy d u now rnd r).2 = balance w - p_price p.
Proof.
  intros Hsize Hto _ Hsel Hw Hle Hseq Hok Hfresh.
  destruct (select_product_network _ _ _ _ _ Hsel) as [Hnet _].
  assert (Hcode : BUZZ (n + 1) ∉ order_id <$> orders d).
  { unfold seq_ok in Hok. rewrite Hseq in Hok.
    intros (o & Heq & Ho)%list_elem_of_fmap.
    rewrite Forall_forall in Hok. specialize (Hok o Ho). simpl in Hok.
    rewrite <- Heq in Hok. simpl in Hok. lia. }
  unfold buy, buy_prepare.
  rewrite decide_False by (intros Hbad; by apply Hbad).
  rewrite decide_False by tauto.
  rewrite Hsel, Hw. rewrite decide_False by done. rewrite Hseq.
  unfold buy_commit, buy_statements, insert_wallet_transaction, insert_order.
  simpl. rewrite decide_False by done. simpl. rewrite decide_False by done.
  simpl. split_and!; [done | by rewrite Hseq |].
  unfold balance_of, wallet_or_default. simpl.
  by rewrite lookup_alter_eq, Hw.
Qed.

Lemma purchase_goes_through_witness :
  (buy (store 5000 [pending_R1]) (token_of ama) 1700000000002 "a1b2c3d4e"
       (mtn_5gb "0241234567")).1
  = Json 200 (PurchaseInitiated (BUZZ (4000 + 1)) 4000
                OrderStatus.processing "0241234567").
Proof.
  refine (proj1 (purchase_goes_through (store 5000 [pending_R1])
            (token_of ama) 1700000000002 "a1b2c3d4e" (mtn_5gb "0241234567")
            {| p_network := MTN; p_bundle_size := "5GB"; p_price := 4000;
               p_status := active |} []
            {| balance := 5000; level := Bronze |} 4000 []
            _ _ _ _ _ _ _ _ _)).
  - discriminate.
  - discriminate.
  - simpl. lia.
  - reflexivity.
  - reflexivity.
  - vm_compute. intros [].
  - reflexivity.
  - vm_compute. constructor.
  - vm_compute. intros Hin. apply list_elem_of_singleton in Hin. discriminate.
Defined.

(** X27. A purchase is refused with "Insufficient wallet balance", and
    nothing is written, when the request names an active bundle and a
    beneficiary and the text of the buyer's balance comes before the
    text of the price in the order of strings, whatever the two
    numbers are: a balance of 100.00 is refused the bundle of 40.00. *)
Theorem purchase_is_refused_by_text_order
    (d : db) (u : auth_user) (now : Z) (rnd : string) (r : buy_request)
    (p : product) (ps : list product) (w : wallet) :
  bundle_size r ≠ "" → beneficiary_number r ≠ "" →
  select_product (network r) (bundle_size r) d = p :: ps →
  wallets d !! id u = Some w →
  js_string_lt (decimal_text (balance w)) (decimal_text (p_price p)) →
  buy d u now rnd r = (Json 400 (Error "Insufficient wallet balance"), d).
Proof.
  intros Hsize Hto Hsel Hw Hlt.
  destruct (select_product_network _ _ _ _ _ Hsel) as [Hnet _].
  unfold buy, buy_prepare.
  rewrite decide_False by (intros Hbad; by apply Hbad).
  rewrite decide_False by tauto.
  rewrite Hsel, Hw. by rewrite decide_True.
Qed.

Lemma purchase_is_refused_by_text_order_witness :
  buy (store 10000 []) (token_of ama) 1700000000002 "a1b2c3d4e"
      (mtn_5gb "0241234567")
  = (Json 400 (Error "Insufficient wallet balance"), store 10000 []).
Proof.
  refine (purchase_is_refused_by_text_order (store 10000 [])
            (token_of ama) 1700000000002 "a1b2c3d4e" (mtn_5gb "0241234567")
            {| p_network := MTN; p_bundle_size := "5GB"; p_price := 4000;
               p_status := active |} []
            {| balance := 10000; level := Bronze |} _ _ _ _ _).
  - discriminate.
  - discriminate.
  - reflexivity.
  - reflexivity.
  - vm_compute. exact I.
Defined.

(** ** Manual verification *)

(** X19. A manual verification that the provider answers with
    "success" credits the caller's wallet with the reported amount,
    whether or not the ledger holds an entry under the reference; it
    changes the recorded amount of no entry, and it moves no other
    account's balance.  With any other answer, or none, the store is
    left as it was. *)
Theorem verification_credits_the_caller
    (d : db) (u : auth_user) (reference : string) (answer : option verification) :
  let d' := (verify d u reference answer).2 in
  (∀ a w, answer = Some a → v_status a = "success" →
          wallets d !! id u = Some w →
          balance_of (id u) d' = balance w + v_amount a)
  ∧ (∀ a, answer = Some a → v_status a ≠ "success" → d' = d)
  ∧ (answer = None → d' = d)
  ∧ tx_amount <$> wallet_transactions d' = tx_amount <$> wallet_transactions d
  ∧ ∀ v, v ≠ id u → balance_of v d' = balance_of v d.
Proof.
  unfold verify. destruct answer as [a |]; simpl; [| by split_and!].
  case_decide as Hst; simpl.
  - split_and!; try done.
    + intros a' w [= <-] _ Hw. unfold balance_of, wallet_or_default. simpl.
      by rewrite lookup_alter_eq, Hw.
    + intros a' [= <-] Hno. done.
    + rewrite <- list_fmap_compose. apply list_fmap_ext. intros i t _. simpl.
      by case_decide.
    + intros v Hv. unfold balance_of, wallet_or_default. simpl.
      by rewrite lookup_alter_ne.
  - split_and!; try done. intros a' w [= <-] Hyes. done.
Qed.

(** ** The token check *)

Lemma split_space_nonempty (s : string) : split_space s ≠ [].
Proof. destruct s as [| c s]; simpl; [done |]. by by_cases. Qed.

Lemma split_space_spaceless (t : string) :
  spaceless t → split_space t = [t].
Proof.
  induction t as [| c t IH]; simpl; [done |]. intros [Hc Ht].
  rewrite decide_False by done. by rewrite IH.
Qed.

Lemma split_space_word (w s : string) :
  spaceless w → split_space (w +:+ " " +:+ s) = w :: split_space s.
Proof.
  induction w as [| c w IH]; simpl; [done |]. intros [Hc Hw].
  rewrite decide_False by done. by rewrite IH.
Qed.

(** X20. The token check takes the second space-separated piece of the
    [Authorization] header as the token and never looks at the first:
    a header made of any word, one space and a token is verified on the
    token alone (403 when the verification fails).  No header, a header
    without a space, and a header with two spaces after the first word
    are all answered 401 "Access token required". *)
Theorem token_check_reads_second_piece
    (jwt_verify : string → string → option auth_user)
    (jwt_secret : option string) :
  authenticateToken jwt_verify jwt_secret None
    = inl (Json 401 (Error "Access token required"))
  ∧ (∀ h, spaceless h →
       authenticateToken jwt_verify jwt_secret (Some h)
       = inl (Json 401 (Error "Access token required")))
  ∧ (∀ w s, spaceless w →
       authenticateToken jwt_verify jwt_secret (Some (w +:+ "  " +:+ s))
       = inl (Json 401 (Error "Access token required")))
  ∧ (∀ w t, spaceless w → spaceless t → t ≠ "" →
       authenticateToken jwt_verify jwt_secret (Some (w +:+ " " +:+ t))
       = match jwt_verify t (jwt_key jwt_secret) with
         | Some user => inr user
         | None => inl (Json 403 (Error "Invalid token"))
         end).
Proof.
  unfold authenticateToken, token_of_header. split_and!.
  - done.
  - intros h Hh. case_decide; [done |]. by rewrite split_space_spaceless.
  - intros w s Hw. case_decide; [done |].
    change (w +:+ "  " +:+ s) with (w +:+ " " +:+ (" " +:+ s)).
    rewrite split_space_word by done. done.
  - intros w t Hw Ht Hne. rewrite decide_False.
    + rewrite split_space_word, split_space_spaceless by done. simpl.
      by rewrite decide_False.
    + by destruct w.
Qed.

(** ** Signing up *)

Lemma signup_success_inv (jwt_sign : auth_user → string → string)
    (jwt_secret : option string) (d : db) (insertId : Z) (r : signup_request)
    (s : signed_up) (d' : db) :
  signup jwt_sign jwt_secret d insertId r = (Reply 201 s, d') →
  s_email r ≠ ""
  ∧ filter (λ x, u_email x = s_email r) (users d) = []
  ∧ (insertId ∉ u_id <$> users d)
  ∧ (s_email r ∉ u_email <$> users d)
  ∧ wallets d !! insertId = None
  ∧ d' = {| users := users d
                     ++ [{| u_id := insertId; u_full_name := full_name r;
                            u_email := s_email r |}];
            wallets := <[insertId := {| balance := 0; level := Bronze |}]>
                         (wallets d);
            wallet_transactions := wallet_transactions d;
            orders := orders d; order_sequence := order_sequence d;
            data_bundle_products := data_bundle_products d |}.
Proof.
  unfold signup, insert_user, insert_wallet. intros H.
  by_cases; simplify_eq/=. split_and!; try done; tauto.
Qed.

(** X21. Once a sign-up has been answered 201, every later sign-up with
    the same address, all fields filled and the passwords matching, is
    answered 409 "Email already registered" and writes nothing. *)
Theorem second_signup_is_refused
    (jwt_sign : auth_user → string → string) (jwt_secret : option string)
    (d : db) (id1 id2 : Z) (r1 r2 : signup_request) (s : signed_up) (d1 : db) :
  signup jwt_sign jwt_secret d id1 r1 = (Reply 201 s, d1) →
  s_email r2 = s_email r1 →
  full_name r2 ≠ "" → s_phone r2 ≠ "" → password r2 ≠ "" →
  confirm_password r2 = password r2 →
  signup jwt_sign jwt_secret d1 id2 r2
  = (Refusal 409 "Email already registered", d1).
Proof.
  intros H1 Hmail Hname Hphone Hpw Hconfirm.
  destruct (signup_success_inv _ _ _ _ _ _ _ H1)
    as (Hne & Hnone & _ & _ & _ & ->).
  unfold signup. rewrite decide_False by (rewrite Hmail; tauto).
  rewrite decide_False by (intros Hbad; by apply Hbad).
  simpl. rewrite filter_app, Hmail, Hnone. simpl.
  by rewrite filter_cons_True.
Qed.

Lemma second_signup_is_refused_witness :
  signup toy_sign None
         (signup toy_sign None (initializeDB empty_db 1) 2 ama_signs_up).2
         3 ama_signs_up
  = (Refusal 409 "Email already registered",
     (signup toy_sign None (initializeDB empty_db 1) 2 ama_signs_up).2).
Proof.
  refine (second_signup_is_refused toy_sign None (initializeDB empty_db 1)
            2 3 ama_signs_up ama_signs_up
            {| su_token := "ama@example.com.your-secret-key"; su_id := 2;
               su_full_name := "Ama"; su_email := "ama@example.com";
               su_phone := "0241234567" |} _ _ _ _ _ _ _).
  - vm_compute. reflexivity.
  - reflexivity.
  - discriminate.
  - discriminate.
  - discriminate.
  - reflexivity.
Defined.

Lemma net_of_stranger (uid : Z) (ts : list wallet_transaction) :
  Forall (λ t, tx_user_id t ≠ uid) ts → net uid ts = 0.
Proof.
  induction 1 as [| t ts Ht _ IH]; [done |]. simpl. rewrite IH.
  unfold counts_for. rewrite decide_False; [lia | tauto].
Qed.

Lemma signup_outcomes (jwt_sign : auth_user → string → string)
    (jwt_secret : option string) (d : db) (insertId : Z) (r : signup_request) :
  rows_have_users d →
  (signup jwt_sign jwt_secret d insertId r).2 = d
  ∨ (insertId ∉ u_id <$> users d)
    ∧ (s_email r ∉ u_email <$> users d)
    ∧ wallets d !! insertId = None
    ∧ (signup jwt_sign jwt_secret d insertId r).2
      = {| users := users d
                    ++ [{| u_id := insertId; u_full_name := full_name r;
                           u_email := s_email r |}];
           wallets := <[insertId := {| balance := 0; level := Bronze |}]>
                        (wallets d);
           wallet_transactions := wallet_transactions d;
           orders := orders d; order_sequence := order_sequence d;
           data_bundle_products := data_bundle_products d |}.
Proof.
  intros [Hrows _]. unfold signup, insert_user, insert_wallet.
  by_cases; simplify_eq/=; auto.
  - right. split_and!; try done; tauto.
  - exfalso.
    match goal with
    | H : ¬ (_ ∨ _) |- _ => apply H; left; apply Hrows; eauto
    end.
Qed.

(** X23. Whatever its outcome, a sign-up on a store whose wallet rows
    and ledger entries belong to users keeps the store well-formed:
    every user still has a wallet row if every user had one, ids and
    addresses stay distinct, wallet rows and entries still belong to
    users, and the reconstruction invariant still holds if it held. *)
Theorem signup_keeps_the_store_well_formed
    (jwt_sign : auth_user → string → string) (jwt_secret : option string)
    (d : db) (insertId : Z) (r : signup_request) :
  rows_have_users d →
  let d' := (signup jwt_sign jwt_secret d insertId r).2 in
  rows_have_users d'
  ∧ (users_have_wallets d → users_have_wallets d')
  ∧ (user_keys d → user_keys d')
  ∧ (reconstructs d → reconstructs d').
Proof.
  intros Hrows d'. subst d'.
  destruct (signup_outcomes jwt_sign jwt_secret d insertId r Hrows)
    as [-> | (Hid & Hmail & Hnone & ->)]; [done |].
  destruct Hrows as [Hwallets Hentries].
  unfold rows_have_users, users_have_wallets, user_keys. simpl. split_and!.
  - intros uid Huid. rewrite fmap_app. apply elem_of_app.
    destruct (decide (uid = insertId)) as [-> | Hne]; [right; left |].
    left. apply Hwallets. by rewrite lookup_insert_ne in Huid.
  - eapply Forall_impl; [exact Hentries |]. simpl. intros t Ht.
    rewrite fmap_app. apply elem_of_app. by left.
  - intros Hall. apply Forall_app. split.
    + eapply Forall_impl; [exact Hall |]. simpl. intros x Hx.
      rewrite lookup_insert_is_Some.
      destruct (decide (insertId = u_id x)); [by left | by right].
    + constructor; [| constructor]. simpl. rewrite lookup_insert_eq. eauto.
  - intros [Hids Hmails]. rewrite !fmap_app. split.
    + apply NoDup_app. split_and!; [done | | apply NoDup_singleton].
      intros i Hi ->%list_elem_of_singleton. done.
    + apply NoDup_app. split_and!; [done | | apply NoDup_singleton].
      intros i Hi ->%list_elem_of_singleton. done.
  - intros Hrec uid w Hw. simpl in *.
    destruct (decide (uid = insertId)) as [-> | Hne].
    + rewrite lookup_insert_eq in Hw. simplify_eq. simpl.
      rewrite net_of_stranger; [done |].
      eapply Forall_impl; [exact Hentries |]. simpl. intros t Ht Heq.
      by rewrite Heq in Ht.
    + rewrite lookup_insert_ne in Hw by done. by apply Hrec.
Qed.

Lemma signup_keeps_the_store_well_formed_witness :
  rows_have_users
    (signup toy_sign None (initializeDB empty_db 1) 2 ama_signs_up).2.
Proof.
  refine (proj1 (signup_keeps_the_store_well_formed toy_sign None
            (initializeDB empty_db 1) 2 ama_signs_up _)).
  split.
  - intros uid [w Hw]. vm_compute in Hw. discriminate.
  - vm_compute. constructor.
Defined.

(** ** Seeding the store *)

Lemma initializeDB_on_seeded (d : db) (insertId : Z) :
  order_sequence d ≠ [] → data_bundle_products d ≠ [] → admin_email_taken d →
  initializeDB d insertId = d.
Proof.
  unfold admin_email_taken, initializeDB. intros Hseq Hps Hadmin.
  destruct (order_sequence d) as [| n ns]; [done |].
  destruct (data_bundle_products d) as [| p ps]; [done |].
  by destruct (filter _ (users d)).
Qed.

Lemma initializeDB_tables (d : db) (insertId : Z) :
  wallets (initializeDB d insertId) = wallets d
  ∧ wallet_transactions (initializeDB d insertId) = wallet_transactions d
  ∧ orders (initializeDB d insertId) = orders d
  ∧ order_sequence (initializeDB d insertId)
    = match order_sequence d with [] => [4000] | _ :: _ => order_sequence d end
  ∧ data_bundle_products (initializeDB d insertId)
    = match data_bundle_products d with
      | [] => catalogue
      | _ :: _ => data_bundle_products d
      end
  ∧ (admin_email_taken d ∨ insertId ∉ u_id <$> users d →
     admin_email_taken (initializeDB d insertId)).
Proof.
  destruct d as [us ws ts os sq ps].
  unfold admin_email_taken, initializeDB, insert_user, set_order_sequence.
  simpl. destruct sq as [| n ns]; destruct ps as [| p ps]; simpl.
  all: destruct (filter (λ x, u_email x = "admin@buybuzz.com") us)
         as [| x xs] eqn:Hsel; simpl.
  all: try case_decide as Hdup; simpl.
  all: split_and!; try done.
  all: try (intros _; rewrite filter_app, Hsel; simpl;
            by rewrite filter_cons_True).
  all: try (rewrite Hsel; by intros _).
  all: rewrite Hsel; intros [? | Hfresh]; [done |]; exfalso; apply Hfresh.
  all: destruct Hdup as [? | Hmail]; [done |]; exfalso.
  all: apply list_elem_of_fmap in Hmail as (y & Hy & Hin).
  all: assert (Hy' : y ∈ filter (λ x, u_email x = "admin@buybuzz.com") us)
         by (by apply list_elem_of_filter).
  all: rewrite Hsel in Hy'; by apply elem_of_nil in Hy'.
Qed.

(** X24. Seeding is safe to repeat: it touches no wallet, ledger entry
    or order, it leaves a sequence row and a product list that exist as
    they are (the counter is not reset), and, the administrator being
    there already or the id for him being fresh, a second run changes
    nothing. *)
Theorem initializeDB_can_be_repeated (d : db) (id1 id2 : Z) :
  (admin_email_taken d ∨ id1 ∉ u_id <$> users d) →
  initializeDB (initializeDB d id1) id2 = initializeDB d id1
  ∧ wallets (initializeDB d id1) = wallets d
  ∧ wallet_transactions (initializeDB d id1) = wallet_transactions d
  ∧ orders (initializeDB d id1) = orders d
  ∧ (order_sequence d ≠ [] →
     order_sequence (initializeDB d id1) = order_sequence d)
  ∧ (data_bundle_products d ≠ [] →
     data_bundle_products (initializeDB d id1) = data_bundle_products d).
Proof.
  intros Hadmin.
  destruct (initializeDB_tables d id1) as (Hw & Hts & Hos & Hseq & Hps & Htaken).
  split_and!; try done.
  - apply initializeDB_on_seeded; [| | by apply Htaken].
    + rewrite Hseq. by destruct (order_sequence d).
    + rewrite Hps. by destruct (data_bundle_products d).
  - intros Hne. rewrite Hseq. by destruct (order_sequence d).
  - intros Hne. rewrite Hps. by destruct (data_bundle_products d).
Qed.

Lemma initializeDB_can_be_repeated_witness :
  initializeDB (initializeDB empty_db 1) 2 = initializeDB empty_db 1.
Proof.
  refine (proj1 (initializeDB_can_be_repeated empty_db 1 2 _)).
  right. vm_compute. apply not_elem_of_nil.
Defined.

(** ** The pages after a purchase *)

Lemma count_orders_app (P : order → Prop) `{!∀ o, Decision (P o)}
    (d d' : db) (o : order) :
  orders d' = orders d ++ [o] →
  count_orders P d' = count_orders P d + (if decide (P o) then 1 else 0).
Proof.
  intros Hos. unfold count_orders. rewrite Hos, filter_app, length_app.
  simpl. case_decide.
  - rewrite filter_cons_True by done. simpl. lia.
  - rewrite filter_cons_False by done. simpl. lia.
Qed.

(** X25. After a purchase that went through, the buyer's dashboard
    counts one order more in total and one more pending, and as many
    completed as before; the dashboard of any other account counts what
    it counted before. *)
Theorem dashboard_counts_the_purchase
    (d : db) (u : auth_user) (now : Z) (rnd : string) (r : buy_request)
    (code : order_code) (amt : Z) (st : OrderStatus.t) (to : string) (d' : db) :
  buy d u now rnd r = (Json 200 (PurchaseInitiated code amt st to), d') →
  (∃ name w w' s s',
     dashboard d u = Json 200 (DashboardPage name w s)
     ∧ dashboard d' u = Json 200 (DashboardPage name w' s')
     ∧ total_orders s' = total_orders s + 1
     ∧ pending_orders s' = pending_orders s + 1
     ∧ completed_orders s' = completed_orders s
     ∧ wv_balance w' = wv_balance w - amt)
  ∧ ∀ v, id v ≠ id u → dashboard d' v = dashboard d v.
Proof.
  destruct code as [c]. intros Hbuy.
  destruct (buy_success_inv _ _ _ _ _ _ _ c Hbuy)
    as (p & ps & w & n & ns & _ & Hw & _ & _ & _ & Hresp & Hst); [done |].
  simplify_eq. apply buy_statements_inv in Hst as [_ ->].
  pose proof (λ P HP, @count_orders_app P HP d
    {| users := users d;
       wallets := alter (add_balance (- p_price p)) (id u) (wallets d);
       wallet_transactions :=
         wallet_transactions d ++ [purchase_entry u now rnd r (p_price p)];
       orders := orders d ++ [purchase_order u r (p_price p) (BUZZ c)];
       order_sequence := (λ n, n + 1) <$> order_sequence d;
       data_bundle_products := data_bundle_products d |}
    (purchase_order u r (p_price p) (BUZZ c)) eq_refl) as Hcount.
  split.
  - unfold dashboard. eexists _, _, _, _, _.
    split; [reflexivity |]. split; [reflexivity |]. cbn [total_orders
      pending_orders completed_orders]. split_and!.
    + rewrite Hcount. by rewrite decide_True.
    + rewrite Hcount. rewrite decide_True; [done |]. cbn. split; [done | by right].
    + rewrite Hcount. rewrite decide_False; [lia |]. cbn. intros [_ H].
      discriminate H.
    + simpl. by rewrite lookup_alter_eq, Hw.
  - intros v Hv. unfold dashboard. rewrite !Hcount. simpl.
    rewrite !decide_False by (cbn; intros H; destruct H; congruence).
    rewrite lookup_alter_ne by done.
    by rewrite !Z.add_0_r.
Qed.

Lemma dashboard_counts_the_purchase_witness :
  dashboard
    (buy (store 5000 []) (token_of ama) 1700000000002 "a1b2c3d4e"
         (mtn_5gb "0241234567")).2 (token_of kofi)
  = dashboard (store 5000 []) (token_of kofi).
Proof.
  refine (proj2 (dashboard_counts_the_purchase (store 5000 [])
            (token_of ama) 1700000000002 "a1b2c3d4e" (mtn_5gb "0241234567")
            (BUZZ 4001) 4000 OrderStatus.processing "0241234567" _ _)
            (token_of kofi) _).
  - vm_compute. reflexivity.
  - discriminate.
Defined.
